(** * Verification of [ohlcv_to_csv.py]

    A shallow embedding of the candle fetcher: [fetch_candles] (retry with
    exponential backoff), the pagination loop of [main], and the final merge
    of the stored CSV with the freshly fetched candles.

    Modelling choices:
    - The exchange object is a pair of functions indexed by the number of
      calls made so far, so that a run is a function of its inputs.
    - Prices and volumes are rationals; the CSV stores them with 8 decimals,
      so a file row holds them as integers scaled by [10^8].
    - [main] runs in a state-and-exception monad over a world holding the file
      system, the call counters, the sleeps made and the lines printed.
    - The [while True] loop is bounded by a fuel argument; running out of fuel
      yields [Diverge]. *)

From Stdlib Require Import ZArith List String Ascii Bool Lia QArith Qround Qabs.
From Stdlib Require Import Sorted Permutation.
Import ListNotations.
Open Scope Z_scope.

(** ** Data *)

(** One OHLCV candle, as the exchange returns it ([[t, o, h, l, c, v]]). *)
Record candle := mkCandle {
  time : Z; open : Q; high : Q; low : Q; close : Q; volume : Q }.

(** One data row of the CSV file, [time,open,high,low,close,volume], the
    float columns written with [float_format="%.8f"] (scaled by [10^8]). *)
Record csvrow := mkRow {
  r_time : Z; r_open : Z; r_high : Z; r_low : Z; r_close : Z; r_volume : Z }.

Definition csv := list csvrow.

(** [%.8f]: round to 8 decimals (half up). *)
Definition round8 (q : Q) : Z := Qfloor (q * (100000000 # 1) + (1 # 2)).

(** [pd.read_csv] of a float column written with 8 decimals. *)
Definition parse8 (z : Z) : Q := z # 100000000.

Definition to_row (c : candle) : csvrow :=
  mkRow (time c) (round8 (open c)) (round8 (high c)) (round8 (low c))
        (round8 (close c)) (round8 (volume c)).

Definition read_row (r : csvrow) : candle :=
  mkCandle (r_time r) (parse8 (r_open r)) (parse8 (r_high r)) (parse8 (r_low r))
           (parse8 (r_close r)) (parse8 (r_volume r)).

(** ** The exchange (ccxt.bybit) *)

(** What one [exchange.fetch_ohlcv] call yields: an exception, or a page. *)
Inductive answer := AFail (err : string) | APage (candles : list candle).

(** [fetch_ohlcv n symbol timeframe since limit] is the answer of the [n]-th
    call; [milliseconds n] the server time of the [n]-th clock reading. *)
Record exchange := mkExchange {
  fetch_ohlcv : nat -> string -> string -> Z -> Z -> answer;
  milliseconds : nat -> Z }.

(** [exchange.parse8601('2010-01-01T00:00:00Z')] *)
Definition epoch_floor : Z := 1262304000000.

(** ** The world *)

Inductive exn :=
  | ValueError (msg : string)
  | ConnectionError (msg : string)
  | IndexError.

Inductive result (A : Type) := Ok (a : A) | Exc (e : exn) | Diverge.
Arguments Ok {A} a.
Arguments Exc {A} e.
Arguments Diverge {A}.

Inductive sleep := RateLimitDelay (* 0.5 s *) | Backoff (secs : Z).

(** The lines printed by the program, with the values they show. *)
Inductive line :=
  | Banner
  | ErrorLine (msg : string)
  | CsvExists (filename : string)
  | NewCsv (filename : string)
  | FetchingFrom (since : Z)
  | AttemptError (attempt max_retries : nat) (err : string)
  | NoMoreCandles
  | BinnedUnclosed
  | EndOfHistory
  | Added (n : nat) (latest : Z)
  | Saved (n : nat) (filename : string)
  | TotalFetched (n : nat).

Record world := mkWorld {
  w_fs : string -> option csv;
  w_calls : nat;            (* fetch_ohlcv calls made *)
  w_clock : nat;            (* milliseconds calls made *)
  w_requests : list Z;      (* the since of every fetch_ohlcv call *)
  w_sleeps : list sleep;
  w_out : list line }.

Definition M (A : Type) := world -> result A * world.

Definition ret {A} (a : A) : M A := fun w => (Ok a, w).
Definition raise {A} (e : exn) : M A := fun w => (Exc e, w).
Definition diverge {A} : M A := fun w => (Diverge, w).
Definition bind {A B} (m : M A) (k : A -> M B) : M B :=
  fun w => match m w with
           | (Ok a, w1) => k a w1
           | (Exc e, w1) => (Exc e, w1)
           | (Diverge, w1) => (Diverge, w1)
           end.

Notation "x <- m ;; k" := (bind m (fun x => k))
  (at level 61, m at next level, right associativity).
Notation "m ;;; k" := (bind m (fun _ => k))
  (at level 61, right associativity).

Definition print (l : line) : M unit :=
  fun w => (Ok tt, mkWorld (w_fs w) (w_calls w) (w_clock w) (w_requests w)
                           (w_sleeps w) (w_out w ++ [l])).

Definition do_sleep (s : sleep) : M unit :=
  fun w => (Ok tt, mkWorld (w_fs w) (w_calls w) (w_clock w) (w_requests w)
                           (w_sleeps w ++ [s]) (w_out w)).

Definition write_file (filename : string) (content : csv) : M unit :=
  fun w => (Ok tt, mkWorld
    (fun f => if String.eqb f filename then Some content else w_fs w f)
    (w_calls w) (w_clock w) (w_requests w) (w_sleeps w) (w_out w)).

Definition read_file (filename : string) : M (option csv) :=
  fun w => (Ok (w_fs w filename), w).

(** ** Strings *)

Fixpoint digits (fuel n : nat) (acc : string) : string :=
  match fuel with
  | O => acc
  | S f =>
      let acc' := String (ascii_of_nat (48 + n mod 10)) acc in
      if Nat.ltb n 10 then acc' else digits f (n / 10) acc'
  end.

(** [str(n)] *)
Definition nat_to_string (n : nat) : string := digits (S n) n ""%string.

(** [str.replace] of one character by another. *)
Fixpoint replace_char (a b : ascii) (s : string) : string :=
  match s with
  | EmptyString => EmptyString
  | String c t =>
      String (if Ascii.eqb c a then b else c) (replace_char a b t)
  end.

Section Fetcher.

Variable ex : exchange.

Definition call_fetch_ohlcv (symbol timeframe : string) (since limit : Z)
  : M answer :=
  fun w => (Ok (fetch_ohlcv ex (w_calls w) symbol timeframe since limit),
            mkWorld (w_fs w) (S (w_calls w)) (w_clock w)
                    (w_requests w ++ [since]) (w_sleeps w) (w_out w)).

Definition call_milliseconds : M Z :=
  fun w => (Ok (milliseconds ex (w_clock w)),
            mkWorld (w_fs w) (w_calls w) (S (w_clock w)) (w_requests w)
                    (w_sleeps w) (w_out w)).

Definition BYBIT_MAX_CANDLES_PER_FETCH : Z := 1000.

(** The body of [for attempt in range(1, max_retries + 1)] in
    [fetch_candles]; [None] when the loop runs to its end. *)
Fixpoint fetch_attempts (symbol timeframe : string) (since : Z)
    (max_retries : nat) (attempts : list nat) : M (option (list candle)) :=
  match attempts with
  | [] => ret None
  | attempt :: rest =>
      do_sleep RateLimitDelay ;;;
      a <- call_fetch_ohlcv symbol timeframe since BYBIT_MAX_CANDLES_PER_FETCH ;;
      match a with
      | APage candles => ret (Some candles)
      | AFail e =>
          print (AttemptError attempt max_retries e) ;;;
          do_sleep (Backoff (2 ^ Z.of_nat attempt)) ;;;
          fetch_attempts symbol timeframe since max_retries rest
      end
  end.

Definition exhausted_msg (max_retries : nat) : string :=
  ("Failed to fetch candles after " ++ nat_to_string max_retries
   ++ " attempts.")%string.

Definition fetch_candles (symbol timeframe : string) (since : Z)
    (max_retries : nat) : M (list candle) :=
  r <- fetch_attempts symbol timeframe since max_retries
         (seq 1 max_retries) ;;
  match r with
  | Some candles => ret candles
  | None => raise (ConnectionError (exhausted_msg max_retries))
  end.

End Fetcher.

(** ** [validate_timeframe] and [sanitize_filename] *)

Definition valid_timeframes : list string :=
  ["1m"; "3m"; "5m"; "15m"; "30m"; "1h"; "2h"; "4h"; "8h"; "12h";
   "1d"; "3d"; "1w"; "1M"]%string.

(** Python's [repr] of a list of plain strings: [['1m', '3m']]. *)
Definition py_repr_list (l : list string) : string :=
  ("[" ++ concat ", " (map (fun s => "'" ++ s ++ "'") l) ++ "]")%string.

Definition in_valid (timeframe : string) : bool :=
  existsb (String.eqb timeframe) valid_timeframes.

Definition invalid_timeframe_msg (timeframe : string) : string :=
  ("Invalid timeframe '" ++ timeframe ++ "'. Try: "
   ++ py_repr_list valid_timeframes)%string.

Definition validate_timeframe (timeframe : string) : M unit :=
  if in_valid timeframe then ret tt
  else raise (ValueError (invalid_timeframe_msg timeframe)).

Definition sanitize_filename (symbol timeframe : string) : string :=
  let base := replace_char ":"%char "-"%char
                 (replace_char "/"%char "-"%char symbol) in
  (base ++ "_" ++ timeframe ++ ".csv")%string.

(** ** Merge: [drop_duplicates("time")], [sort_values("time")] *)

(** [drop_duplicates("time")] keeps the first row of every time. *)
Fixpoint drop_dup_aux (seen : list Z) (l : list candle) : list candle :=
  match l with
  | [] => []
  | c :: t =>
      if existsb (Z.eqb (time c)) seen then drop_dup_aux seen t
      else c :: drop_dup_aux (time c :: seen) t
  end.

Definition drop_duplicates (l : list candle) : list candle := drop_dup_aux [] l.

Fixpoint insert_by_time (c : candle) (l : list candle) : list candle :=
  match l with
  | [] => [c]
  | d :: t => if time c <=? time d then c :: d :: t else d :: insert_by_time c t
  end.

(** [sort_values("time")]; the keys are distinct by the time it is called,
    so the choice of sorting algorithm does not matter. *)
Fixpoint sort_values (l : list candle) : list candle :=
  match l with
  | [] => []
  | c :: t => insert_by_time c (sort_values t)
  end.

(** [df_final] and [to_csv(..., float_format="%.8f")], lines 103-108. *)
Definition merged (df_old df_new : list candle) : list candle :=
  let df_final := match df_old with [] => df_new | _ => df_old ++ df_new end in
  sort_values (drop_duplicates df_final).

Definition to_csv (df : list candle) : csv := map to_row df.

(** [datetime.utcfromtimestamp(ms / 1000)] succeeds for years 1 to 9999 and
    raises otherwise. *)
Definition utc_in_range (ms : Z) : bool :=
  (-62135596800000 <=? ms) && (ms <? 253402300800000).

Definition utc_check (ms : Z) : M unit :=
  if utc_in_range ms then ret tt else raise (ValueError "year is out of range"%string).

(** [if x] for an [int | None]. *)
Definition truthy (o : option Z) : bool :=
  match o with Some z => negb (z =? 0) | None => false end.

(** [candles[-1]] *)
Definition last_candle (l : list candle) : M candle :=
  match rev l with [] => raise IndexError | c :: _ => ret c end.

Section Main.

Variable ex : exchange.
Variables symbol timeframe : string.

Record loop_state := mkLoop {
  all_candles : list candle;
  previous_last : option Z;
  last_timestamp : option Z }.

Inductive step := Break (acc : list candle) | Continue (st : loop_state).

(** [since = last_timestamp if last_timestamp else exchange.parse8601(...)] *)
Definition since_of (st : loop_state) : Z :=
  match last_timestamp st with
  | Some t => if truthy (Some t) then t else epoch_floor
  | None => epoch_floor
  end.

(** One iteration of [while True] (lines 75-100). *)
Definition loop_body (st : loop_state) : M step :=
  let since := since_of st in
  utc_check since ;;; print (FetchingFrom since) ;;;
  candles <- fetch_candles ex symbol timeframe since 5 ;;
  match candles with
  | [] => print NoMoreCandles ;;; ret (Break (all_candles st))
  | _ =>
    current_time <- call_milliseconds ex ;;
    lastc <- last_candle candles ;;
    candles <- (if current_time <=? time lastc
                then print BinnedUnclosed ;;; ret (removelast candles)
                else ret candles) ;;
    stalled <- (if truthy (previous_last st) then
                  c <- last_candle candles ;;
                  ret (match previous_last st with
                       | Some p => time c <=? p | None => false end)
                else ret false) ;;
    if stalled then print EndOfHistory ;;; ret (Break (all_candles st))
    else
      let acc := all_candles st ++ candles in
      c <- last_candle candles ;;
      utc_check (time c) ;;;
      print (Added (List.length candles) (time c)) ;;;
      ret (Continue (mkLoop acc (Some (time c)) (Some (time c + 1))))
  end.

Fixpoint pagination (fuel : nat) (st : loop_state) : M (list candle) :=
  match fuel with
  | O => diverge
  | S f =>
      s <- loop_body st ;;
      match s with
      | Break acc => ret acc
      | Continue st' => pagination f st'
      end
  end.

(** Lines 62-70: the stored candles and [last_timestamp]. *)
Definition load_old (filename : string) : M (list candle * option Z) :=
  f <- read_file filename ;;
  match f with
  | Some rows =>
      let df_old := map read_row rows in
      c <- last_candle df_old ;;
      print (CsvExists filename) ;;;
      ret (df_old, Some (time c))
  | None => print (NewCsv filename) ;;; ret ([], None)
  end.

(** Lines 102-110. *)
Definition persist (filename : string) (df_old all : list candle) : M unit :=
  let df_final := merged df_old all in
  write_file filename (to_csv df_final) ;;;
  print (Saved (List.length df_final) filename) ;;;
  print (TotalFetched (List.length all)).

Definition main (fuel : nat) : M unit :=
  print Banner ;;;
  if negb (in_valid timeframe) then
    print (ErrorLine (invalid_timeframe_msg timeframe))
  else
    let filename := sanitize_filename symbol timeframe in
    o <- load_old filename ;;
    let '(df_old, last_ts) := o in
    all <- pagination fuel (mkLoop [] None last_ts) ;;
    persist filename df_old all.

End Main.

(** The text of an [ErrorLine]: [print(f"🚨 Error: {e}")]. *)
Definition render_error (msg : string) : string := ("🚨 Error: " ++ msg)%string.

(** ** Retry and backoff *)

(** Total seconds slept in exponential backoff. *)
Fixpoint backoff_total (l : list sleep) : Z :=
  match l with
  | [] => 0
  | Backoff s :: t => s + backoff_total t
  | RateLimitDelay :: t => backoff_total t
  end.

(** [2^a + 2^(a+1) + ... + 2^(a+k-1)] *)
Fixpoint sum_pow (a k : nat) : Z :=
  match k with
  | O => 0
  | S k' => 2 ^ Z.of_nat a + sum_pow (S a) k'
  end.

(** ** Scenarios and predicates used in the statements *)

(** Some line of [out] reports the last of the 5 attempts of [main]'s
    [fetch_candles] calls failing. *)
Definition exhausted (out : list line) : Prop :=
  exists e, In (AttemptError 5 5 e) out.

(** Printing the exhaustion line makes the computation end in the
    exhaustion error. *)
Definition aborts_on_exhaustion {A} (m : M A) : Prop :=
  forall w r w', m w = (r, w') -> exhausted (w_out w') ->
    exhausted (w_out w) \/ r = Exc (ConnectionError (exhausted_msg 5)).

(** The computation leaves the file system alone. *)
Definition no_write {A} (m : M A) : Prop :=
  forall w, w_fs (snd (m w)) = w_fs w.

Definition at_time (t : Z) (c : candle) : bool := time c =? t.
Definition row_at_time (t : Z) (r : csvrow) : bool := r_time r =? t.

Definition time_le (a b : candle) : Prop := time a <= time b.

(** What [main] found on disk before the loop. *)
Definition stored (fs : string -> option csv) (filename : string)
    (df_old : list candle) : Prop :=
  (fs filename = None /\ df_old = []) \/
  (exists rows, fs filename = Some rows /\ rows <> [] /\
                df_old = map read_row rows).

Definition sample_candle (t : Z) : candle := mkCandle t 1 2 (1 # 2) (3 # 2) 10.

Definition empty_world : world := mkWorld (fun _ => None) 0 0 [] [] [].

Definition world_with_file (filename : string) (rows : csv) : world :=
  mkWorld (fun f => if String.eqb f filename then Some rows else None)
          0 0 [] [] [].

(** An exchange answering its [n]-th fetch with the [n]-th page (then with
    empty pages) and whose clock stands at [now]. *)
Definition paged_exchange (pages : list (list candle)) (now : Z) : exchange :=
  mkExchange (fun n _ _ _ _ => APage (nth n pages [])) (fun _ => now).

(** An exchange serving a fixed history: the first [limit] candles at or
    after [since]. *)
Definition history_exchange (history : list candle) (now : Z) : exchange :=
  mkExchange
    (fun _ _ _ since limit =>
       APage (firstn (Z.to_nat limit) (filter (fun c => since <=? time c) history)))
    (fun _ => now).

Definition btc : string := "BTC/USDT:USDT".
Definition btc_file : string := sanitize_filename btc "5m".

(** An exchange that keeps answering with one closed candle at time 0. *)
Definition stuck_exchange : exchange :=
  mkExchange (fun _ _ _ _ _ => APage [sample_candle 0]) (fun _ => 1700000000000).

(** A stable history: 1000 candles at times -1000 .. -1 ms, then one at 5. *)
Definition pre1970_history : list candle :=
  map (fun i => sample_candle (Z.of_nat i - 1000)) (seq 0 1000) ++ [sample_candle 5].

Definition pre1970_exchange : exchange := history_exchange pre1970_history 1700000000000.

(** A stored file whose last row is at -5000 ms. *)
Definition pre1970_world : world :=
  world_with_file btc_file [to_row (sample_candle (-5000))].

Definition first_run : result unit * world :=
  main pre1970_exchange btc "5m" 10 pre1970_world.

Definition second_run : result unit * world :=
  main pre1970_exchange btc "5m" 10 (snd first_run).

(** The stored rows at 100, 200, 300 ms. *)
Definition stored_rows : csv :=
  map (fun t => to_row (sample_candle t)) [100; 200; 300].

(** A fetch returning 300 (with another close), 400 and 500. *)
Definition overlap_exchange : exchange :=
  paged_exchange [[mkCandle 300 1 2 (1 # 2) 7 10; sample_candle 400; sample_candle 500]]
                 1700000000000.

Definition failing_exchange : exchange :=
  mkExchange (fun _ _ _ _ _ => AFail "timeout") (fun _ => 1700000000000).

(** Fails on the first two calls, then returns one candle. *)
Definition flaky_exchange : exchange :=
  mkExchange (fun n _ _ _ _ => if Nat.ltb n 2 then AFail "timeout"
                               else APage [sample_candle 100])
             (fun _ => 1700000000000).

(** What [sanitize_filename] does to one character of the symbol. *)
Definition dash_separators (c : ascii) : ascii :=
  if (Ascii.eqb c "/" || Ascii.eqb c ":")%bool then "-"%char else c.

(** The characters that [sanitize_filename] cannot tell apart. *)
Definition separators : list ascii := ["/"; ":"; "-"]%char.

(** [m] changes no file other than [f]. *)
Definition writes_only {A} (f : string) (m : M A) : Prop :=
  forall w g, g <> f -> w_fs (snd (m w)) g = w_fs w g.

(** [m] never lowers the call counter and only appends requests. *)
Definition grows {A} (m : M A) : Prop :=
  forall w, (w_calls w <= w_calls (snd (m w)))%nat /\
            exists l, w_requests (snd (m w)) = w_requests w ++ l.

(** The error message of a failed answer. *)
Definition err_of (a : answer) : string :=
  match a with AFail e => e | APage _ => ""%string end.

(** The sleeps after failed attempts a, ..., a + n - 1. *)
Definition attempt_sleeps (a n : nat) : list sleep :=
  flat_map (fun i => [RateLimitDelay; Backoff (2 ^ Z.of_nat i)]) (seq a n).



Lemma backoff_total_app (l1 l2 : list sleep) :
  backoff_total (l1 ++ l2) = backoff_total l1 + backoff_total l2.
Proof.
  induction l1 as [|[|s] t IH]; simpl; try rewrite IH; lia.
Qed.

Lemma sum_pow_nonneg (a k : nat) : 0 <= sum_pow a k.
Proof.
  revert a; induction k; intros a; simpl; [lia|].
  specialize (IHk (S a)). pose proof (Z.pow_nonneg 2 (Z.of_nat a)). lia.
Qed.

Section Retry.

Variable ex : exchange.
Variables (symbol timeframe : string) (since : Z) (max_retries : nat).

Lemma fetch_attempts_fail_then_page (k : nat) (P : list candle) :
  forall (a n : nat) (w : world),
    (k < n)%nat ->
    (forall i, (i < k)%nat -> exists e,
        fetch_ohlcv ex (w_calls w + i) symbol timeframe since
          BYBIT_MAX_CANDLES_PER_FETCH = AFail e) ->
    fetch_ohlcv ex (w_calls w + k) symbol timeframe since
      BYBIT_MAX_CANDLES_PER_FETCH = APage P ->
    exists w' s,
      fetch_attempts ex symbol timeframe since max_retries (seq a n) w
        = (Ok (Some P), w') /\
      w_sleeps w' = w_sleeps w ++ s /\
      backoff_total s = sum_pow a k /\
      w_fs w' = w_fs w.
Proof.
  induction k as [|k IH]; intros a n w Hn Hfail Hpage.
  - destruct n as [|n]; [lia|].
    rewrite Nat.add_0_r in Hpage.
    eexists; exists [RateLimitDelay].
    cbn [seq fetch_attempts]; cbv [bind do_sleep call_fetch_ohlcv ret];
      cbn [w_calls].
    rewrite Hpage. cbn. repeat split; reflexivity.
  - destruct n as [|n]; [lia|].
    destruct (Hfail 0%nat ltac:(lia)) as [e He].
    rewrite Nat.add_0_r in He.
    set (w1 := mkWorld (w_fs w) (S (w_calls w)) (w_clock w)
                 (w_requests w ++ [since])
                 ((w_sleeps w ++ [RateLimitDelay]) ++ [Backoff (2 ^ Z.of_nat a)])
                 (w_out w ++ [AttemptError a max_retries e])).
    destruct (IH (S a) n w1) as (w' & s & Hrun & Hs & Hb & Hfs).
    + lia.
    + intros i Hi. destruct (Hfail (S i) ltac:(lia)) as [e' He'].
      exists e'. cbn [w1 w_calls]. rewrite <- He'. f_equal. lia.
    + cbn [w1 w_calls]. rewrite <- Hpage. f_equal. lia.
    + exists w', ([RateLimitDelay; Backoff (2 ^ Z.of_nat a)] ++ s).
      cbn [seq fetch_attempts]; cbv [bind do_sleep call_fetch_ohlcv ret print].
      cbn [w_calls w_fs w_clock w_requests w_sleeps w_out].
      rewrite He. cbn [w_calls w_fs w_clock w_requests w_sleeps w_out].
      unfold w1 in Hrun. rewrite Hrun. repeat split.
      * rewrite Hs. cbn [w1 w_sleeps]. rewrite <- !app_assoc. reflexivity.
      * rewrite backoff_total_app, Hb. cbn. lia.
      * rewrite Hfs. reflexivity.
Qed.

End Retry.

(** ** Monadic invariants *)

Lemma aborts_bind {A B} (m : M A) (k : A -> M B) :
  aborts_on_exhaustion m -> (forall a, aborts_on_exhaustion (k a)) ->
  aborts_on_exhaustion (bind m k).
Proof.
  intros Hm Hk w r w' Hrun Hex. unfold bind in Hrun.
  destruct (m w) as [[a|e|] w1] eqn:Hmw; inversion Hrun; subst.
  - destruct (Hk a w1 r w' Hrun Hex) as [H1|H1]; [|now right].
    destruct (Hm w (Ok a) w1 Hmw H1) as [H2|H2]; [now left|discriminate].
  - destruct (Hm w (Exc e) w' Hmw Hex) as [H2|H2]; [now left|right; now inversion H2].
  - destruct (Hm w Diverge w' Hmw Hex) as [H2|H2]; [now left|discriminate].
Qed.

Lemma aborts_same_out {A} (m : M A) :
  (forall w, w_out (snd (m w)) = w_out w) -> aborts_on_exhaustion m.
Proof.
  intros H w r w' Hrun Hex. left. specialize (H w). rewrite Hrun in H.
  simpl in H. now rewrite <- H.
Qed.

Lemma aborts_print (l : line) :
  (forall e, l <> AttemptError 5 5 e) -> aborts_on_exhaustion (print l).
Proof.
  intros Hl w r w' Hrun [e Hin]. inversion Hrun; subst. simpl in Hin.
  apply in_app_or in Hin as [Hin|[Hin|[]]].
  - left. now exists e.
  - exfalso. now apply (Hl e).
Qed.

Lemma no_write_bind {A B} (m : M A) (k : A -> M B) :
  no_write m -> (forall a, no_write (k a)) -> no_write (bind m k).
Proof.
  intros Hm Hk w. unfold bind. specialize (Hm w).
  destruct (m w) as [[a|e|] w1]; simpl in *; try rewrite Hk; exact Hm.
Qed.

Lemma no_write_print (l : line) : no_write (print l).
Proof. intros w. reflexivity. Qed.

Create HintDb fetcher.
#[local] Hint Resolve aborts_bind no_write_bind no_write_print : fetcher.

(** Breaks up a monadic program into its steps, case-splitting on the
    pure values the steps branch on. *)
Ltac monad_steps lemma_bind :=
  repeat match goal with
  | |- _ (bind _ _) => apply lemma_bind; [|intros ?]
  | |- _ (match ?x with _ => _ end) => destruct x
  | |- _ (if ?b then _ else _) => destruct b
  end.

Section Invariants.

Variable ex : exchange.
Variables symbol timeframe : string.

Lemma fetch_attempts_exhausted (since : Z) :
  forall n a w r w',
    (a + n = 6)%nat ->
    fetch_attempts ex symbol timeframe since 5 (seq a n) w = (r, w') ->
    exhausted (w_out w') -> exhausted (w_out w) \/ r = Ok None.
Proof.
  induction n as [|n IH]; intros a w r w' Han Hrun Hex.
  - inversion Hrun; subst. now right.
  - cbn [seq fetch_attempts] in Hrun.
    cbv [bind do_sleep call_fetch_ohlcv ret] in Hrun.
    cbn [w_fs w_calls w_clock w_requests w_sleeps w_out] in Hrun.
    destruct (fetch_ohlcv ex _ _ _ _ _) as [e|p].
    + cbv [print] in Hrun. cbn [w_fs w_calls w_clock w_requests w_sleeps w_out] in Hrun.
      fold (@bind unit (option (list candle))) in Hrun.
      match type of Hrun with
      | fetch_attempts _ _ _ _ _ (seq (S a) n) ?w2 = _ =>
          destruct (IH (S a) w2 r w' ltac:(lia) Hrun Hex) as [[e' Hin]|Hr]
      end; [|now right].
      cbn [w_out] in Hin. apply in_app_or in Hin as [Hin|[Hin|[]]].
      * left. now exists e'.
      * inversion Hin; subst. assert (n = 0%nat) by lia. subst n.
        cbn in Hrun. inversion Hrun. now right.
    + inversion Hrun; subst. left. exact Hex.
Qed.

Lemma fetch_attempts_no_write (since : Z) (mr : nat) (l : list nat) :
  no_write (fetch_attempts ex symbol timeframe since mr l).
Proof.
  induction l as [|a l IH]; intros w; [reflexivity|].
  cbn [fetch_attempts]. cbv [bind do_sleep call_fetch_ohlcv ret print].
  destruct (fetch_ohlcv _ _ _ _ _ _); [|reflexivity].
  fold (@bind unit (option (list candle))).
  rewrite IH. reflexivity.
Qed.

Lemma fetch_candles_no_write (since : Z) (mr : nat) :
  no_write (fetch_candles ex symbol timeframe since mr).
Proof.
  unfold fetch_candles. apply no_write_bind.
  - apply fetch_attempts_no_write.
  - intros [p|] w; reflexivity.
Qed.

Lemma aborts_fetch_candles (since : Z) :
  aborts_on_exhaustion (fetch_candles ex symbol timeframe since 5).
Proof.
  intros w r w' Hrun Hex. unfold fetch_candles, bind in Hrun.
  destruct (fetch_attempts ex symbol timeframe since 5 (seq 1 5) w)
    as [[o|e|] w1] eqn:Hfa.
  - destruct o as [p|]; inversion Hrun; subst; [|now right].
    destruct (fetch_attempts_exhausted since 5 1 w (Ok (Some p)) w'
                ltac:(lia) Hfa Hex) as [H|H]; [now left|discriminate].
  - inversion Hrun; subst.
    destruct (fetch_attempts_exhausted since 5 1 w (Exc e) w'
                ltac:(lia) Hfa Hex) as [H|H]; [now left|discriminate].
  - inversion Hrun; subst.
    destruct (fetch_attempts_exhausted since 5 1 w Diverge w'
                ltac:(lia) Hfa Hex) as [H|H]; [now left|discriminate].
Qed.

Ltac abort_leaf :=
  first [ apply aborts_print; intros ? ?; discriminate
        | apply aborts_fetch_candles
        | apply aborts_same_out; intros ?; reflexivity ].

Ltac no_write_leaf :=
  first [ apply no_write_print
        | apply fetch_candles_no_write
        | intros ?; reflexivity ].

Lemma loop_body_aborts (st : loop_state) :
  aborts_on_exhaustion (loop_body ex symbol timeframe st).
Proof.
  unfold loop_body, utc_check, last_candle. cbv zeta.
  monad_steps @aborts_bind; abort_leaf.
Qed.

Lemma loop_body_no_write (st : loop_state) :
  no_write (loop_body ex symbol timeframe st).
Proof.
  unfold loop_body, utc_check, last_candle. cbv zeta.
  monad_steps @no_write_bind; no_write_leaf.
Qed.

Lemma pagination_aborts (fuel : nat) :
  forall st, aborts_on_exhaustion (pagination ex symbol timeframe fuel st).
Proof.
  induction fuel as [|fuel IH]; intros st; cbn [pagination].
  - abort_leaf.
  - apply aborts_bind; [apply loop_body_aborts|].
    intros [acc|st']; [abort_leaf|apply IH].
Qed.

Lemma pagination_no_write (fuel : nat) :
  forall st, no_write (pagination ex symbol timeframe fuel st).
Proof.
  induction fuel as [|fuel IH]; intros st; cbn [pagination].
  - no_write_leaf.
  - apply no_write_bind; [apply loop_body_no_write|].
    intros [acc|st']; [no_write_leaf|apply IH].
Qed.

Lemma load_old_aborts (filename : string) :
  aborts_on_exhaustion (load_old filename).
Proof.
  unfold load_old, last_candle. monad_steps @aborts_bind; abort_leaf.
Qed.

Lemma load_old_no_write (filename : string) : no_write (load_old filename).
Proof.
  unfold load_old, last_candle. monad_steps @no_write_bind; no_write_leaf.
Qed.

Lemma persist_aborts (filename : string) (df_old all : list candle) :
  aborts_on_exhaustion (persist filename df_old all).
Proof.
  unfold persist. monad_steps @aborts_bind; abort_leaf.
Qed.

Lemma main_aborts (fuel : nat) :
  aborts_on_exhaustion (main ex symbol timeframe fuel).
Proof.
  unfold main. cbv zeta. apply aborts_bind; [abort_leaf|intros _].
  destruct (negb (in_valid timeframe)); [abort_leaf|].
  apply aborts_bind; [apply load_old_aborts|intros [df_old last_ts]].
  apply aborts_bind; [apply pagination_aborts|intros all].
  apply persist_aborts.
Qed.

(** A run of [main] that does not finish normally has not touched the
    file system: the only write is the last but two step of [main]. *)
Lemma main_unfinished_no_write (fuel : nat) (w w' : world) (r : result unit) :
  main ex symbol timeframe fuel w = (r, w') -> r <> Ok tt -> w_fs w' = w_fs w.
Proof.
  intros Hrun Hr. unfold main in Hrun. cbv zeta in Hrun.
  unfold bind at 1, print at 1 in Hrun. cbn [w_fs w_out] in Hrun.
  destruct (negb (in_valid timeframe)).
  { inversion Hrun; subst. now destruct Hr. }
  unfold bind at 1 in Hrun.
  match type of Hrun with
  | (match load_old ?f ?w1 with _ => _ end) = _ =>
      pose proof (load_old_no_write f w1) as Hl;
      destruct (load_old f w1) as [[[df_old last_ts]|e|] w2] eqn:Hlo
  end; cbn [snd] in Hl; cbn [w_fs] in Hl; try (inversion Hrun; subst; exact Hl).
  unfold bind at 1 in Hrun.
  match type of Hrun with
  | (match pagination _ _ _ ?fu ?st ?w3 with _ => _ end) = _ =>
      pose proof (pagination_no_write fu st w3) as Hp;
      destruct (pagination ex symbol timeframe fu st w3) as [[all|e|] w4]
  end; cbn [snd] in Hp; inversion Hrun; subst; congruence.
Qed.

End Invariants.

(** ** The merge *)

Lemma round8_parse8 (z : Z) : round8 (parse8 z) = z.
Proof.
  unfold round8, parse8, Qfloor, Qmult, Qplus. cbn [Qnum Qden].
  rewrite Pos2Z.inj_mul, Pos2Z.inj_mul.
  replace (z * 100000000 * Z.pos 2 + 1 * (Z.pos 100000000 * Z.pos 1))
    with (z * (Z.pos 100000000 * Z.pos 1 * Z.pos 2) + 100000000) by lia.
  rewrite Z.div_add_l by lia. rewrite Z.div_small by lia. lia.
Qed.

Lemma to_row_read_row (r : csvrow) : to_row (read_row r) = r.
Proof.
  destruct r; unfold to_row, read_row; cbn [time open high low close volume r_time r_open r_high r_low r_close r_volume]. now rewrite !round8_parse8.
Qed.

Lemma drop_dup_aux_spec (l : list candle) :
  forall seen,
    NoDup (map time (drop_dup_aux seen l)) /\
    (forall c, In c (drop_dup_aux seen l) -> ~ In (time c) seen) /\
    incl (drop_dup_aux seen l) l.
Proof.
  induction l as [|c l IH]; intros seen; cbn [drop_dup_aux].
  - repeat split; [constructor | intros _ [] | intros _ []].
  - destruct (existsb (Z.eqb (time c)) seen) eqn:Hs.
    + destruct (IH seen) as (H1 & H2 & H3).
      repeat split; [exact H1 | exact H2 | intros x Hx; right; auto].
    + destruct (IH (time c :: seen)) as (H1 & H2 & H3). repeat split.
      * cbn [map]. constructor; [|exact H1].
        intros Hin. apply in_map_iff in Hin as (d & Hd & Hin).
        apply (H2 d Hin). left. symmetry. exact Hd.
      * intros d [Hdc|Hin].
        -- subst d. intros Hin. assert (existsb (Z.eqb (time c)) seen = true)
             by (apply existsb_exists; exists (time c); split;
                 [exact Hin | apply Z.eqb_refl]).
           congruence.
        -- intros Hin'. apply (H2 d Hin). right. exact Hin'.
      * intros x [<-|Hx]; [left; reflexivity | right; auto].
Qed.

Lemma find_drop_dup_aux (t : Z) (l : list candle) :
  forall seen, ~ In t seen ->
    find (at_time t) (drop_dup_aux seen l) = find (at_time t) l.
Proof.
  induction l as [|c l IH]; intros seen Ht; cbn [drop_dup_aux find]; auto.
  destruct (existsb (Z.eqb (time c)) seen) eqn:Hs.
  - apply existsb_exists in Hs as (u & Hu & Heq). apply Z.eqb_eq in Heq.
    unfold at_time at 2. destruct (Z.eqb_spec (time c) t); [congruence|].
    now apply IH.
  - cbn [find]. destruct (at_time t c) eqn:Hc; [reflexivity|].
    apply IH. intros [Heq|Hin]; [|contradiction].
    unfold at_time in Hc. rewrite Heq, Z.eqb_refl in Hc. discriminate.
Qed.

Lemma insert_by_time_perm (c : candle) (l : list candle) :
  Permutation (insert_by_time c l) (c :: l).
Proof.
  induction l as [|d l IH]; cbn [insert_by_time]; [reflexivity|].
  destruct (time c <=? time d); [reflexivity|].
  rewrite IH. apply perm_swap.
Qed.

Lemma sort_values_perm (l : list candle) : Permutation (sort_values l) l.
Proof.
  induction l as [|c l IH]; cbn [sort_values]; [reflexivity|].
  rewrite insert_by_time_perm. now apply perm_skip.
Qed.

Lemma insert_by_time_sorted (c : candle) (l : list candle) :
  Sorted time_le l -> Sorted time_le (insert_by_time c l).
Proof.
  induction 1 as [|d l Hs IH Hd]; cbn [insert_by_time].
  - repeat constructor.
  - destruct (Z.leb_spec (time c) (time d)).
    + constructor; [constructor; assumption|]. constructor. exact H.
    + constructor; [exact IH|].
      destruct l as [|e l]; cbn [insert_by_time].
      * constructor. unfold time_le. lia.
      * inversion Hd; subst. destruct (time c <=? time e);
          constructor; unfold time_le in *; lia.
Qed.

Lemma sort_values_sorted (l : list candle) : Sorted time_le (sort_values l).
Proof.
  induction l; cbn [sort_values]; [constructor|].
  now apply insert_by_time_sorted.
Qed.

Lemma sorted_strict (l : list candle) :
  Sorted time_le l -> NoDup (map time l) ->
  Sorted (fun a b => time a < time b) l.
Proof.
  induction 1 as [|a l Hs IH Hd]; intros Hnd; constructor.
  - inversion Hnd; auto.
  - inversion Hnd as [|? ? Hnin Hnd']; subst.
    destruct l as [|b l]; constructor. inversion Hd; subst.
    unfold time_le in *. assert (time a <> time b) by (intros Heq; apply Hnin;
      rewrite Heq; left; reflexivity). lia.
Qed.

Lemma Sorted_map_rel {A B} (R : A -> A -> Prop) (R' : B -> B -> Prop)
    (f : A -> B) (l : list A) :
  (forall a b, R a b -> R' (f a) (f b)) -> Sorted R l -> Sorted R' (map f l).
Proof.
  intros HR. induction 1 as [|a l Hs IH Hd]; cbn [map]; constructor; auto.
  destruct Hd; constructor. auto.
Qed.

Lemma Sorted_nth_error {A} (R : A -> A -> Prop) (l : list A) :
  Sorted R l -> forall i a b,
    nth_error l i = Some a -> nth_error l (S i) = Some b -> R a b.
Proof.
  induction 1 as [|x l Hs IH Hd]; intros i a b Ha Hb.
  - destruct i; discriminate.
  - destruct i as [|i].
    + cbn in Ha, Hb. inversion Ha; subst. destruct l as [|y l]; [discriminate|].
      cbn in Hb. inversion Hb; subst. now inversion Hd.
    + exact (IH i a b Ha Hb).
Qed.

Lemma NoDup_count_one {A} (f : A -> Z) (l : list A) (t : Z) :
  NoDup (map f l) -> In t (map f l) ->
  List.length (filter (fun x => f x =? t) l) = 1%nat.
Proof.
  induction l as [|x l IH]; intros Hnd Hin; [destruct Hin|].
  cbn [map] in Hnd, Hin. inversion Hnd as [|? ? Hnin Hnd']; subst.
  cbn [filter]. destruct (Z.eqb_spec (f x) t) as [Heq|Hne].
  - cbn [List.length]. f_equal. subst t.
    assert (Hnone : forall y, In y l -> (f y =? f x) = false).
    { intros y Hy. apply Z.eqb_neq. intros Heq. apply Hnin.
      rewrite <- Heq. now apply in_map. }
    clear - Hnone. induction l as [|y l IHl]; [reflexivity|].
    cbn [filter]. rewrite (Hnone y (or_introl eq_refl)).
    apply IHl. intros z Hz. apply Hnone. now right.
  - destruct Hin as [Heq|Hin]; [contradiction|]. now apply IH.
Qed.

Lemma NoDup_map_inj {A B} (f : A -> B) (l : list A) (x y : A) :
  NoDup (map f l) -> In x l -> In y l -> f x = f y -> x = y.
Proof.
  induction l as [|a l IH]; intros Hnd Hx Hy Heq; [destruct Hx|].
  cbn [map] in Hnd. inversion Hnd as [|? ? Hnin Hnd']; subst.
  destruct Hx as [<-|Hx], Hy as [<-|Hy]; auto.
  - exfalso. apply Hnin. rewrite Heq. now apply in_map.
  - exfalso. apply Hnin. rewrite <- Heq. now apply in_map.
Qed.

Lemma find_perm_unique (t : Z) (l l' : list candle) :
  NoDup (map time l) -> Permutation l l' ->
  find (at_time t) l' = find (at_time t) l.
Proof.
  intros Hnd Hp.
  destruct (find (at_time t) l) as [x|] eqn:E1, (find (at_time t) l') as [y|] eqn:E2.
  - apply find_some in E1 as [Hx Hxt]. apply find_some in E2 as [Hy Hyt].
    apply (Permutation_in _ (Permutation_sym Hp)) in Hy.
    unfold at_time in *. apply Z.eqb_eq in Hxt, Hyt. f_equal.
    apply (NoDup_map_inj time l); auto; congruence.
  - apply find_some in E1 as [Hx Hxt].
    rewrite (find_none _ _ E2 x (Permutation_in _ Hp Hx)) in Hxt. discriminate.
  - apply find_some in E2 as [Hy Hyt].
    rewrite (find_none _ _ E1 y (Permutation_in _ (Permutation_sym Hp) Hy)) in Hyt.
    discriminate.
  - reflexivity.
Qed.

Lemma find_app_first {A} (f : A -> bool) (l1 l2 : list A) :
  (exists x, In x l1 /\ f x = true) -> find f (l1 ++ l2) = find f l1.
Proof.
  induction l1 as [|a l1 IH]; intros [x [Hx Hfx]]; [destruct Hx|].
  cbn [app find]. destruct (f a) eqn:Ha; [reflexivity|].
  apply IH. destruct Hx as [<-|Hx]; [congruence|]. now exists x.
Qed.

Lemma find_to_csv (t : Z) (l : list candle) :
  find (row_at_time t) (to_csv l) = option_map to_row (find (at_time t) l).
Proof.
  induction l as [|c l IH]; [reflexivity|]. cbn [to_csv map find].
  unfold row_at_time at 1, at_time at 1. cbn [to_row r_time].
  destruct (time c =? t); [reflexivity|]. exact IH.
Qed.

Lemma merged_nodup_sorted (df_old df_new : list candle) :
  NoDup (map time (merged df_old df_new)) /\
  Sorted time_le (merged df_old df_new).
Proof.
  unfold merged. split; [|apply sort_values_sorted].
  eapply Permutation_NoDup; [apply Permutation_map; symmetry; apply sort_values_perm|].
  apply drop_dup_aux_spec.
Qed.

(** Old rows come first in the concatenation and [drop_duplicates] keeps
    first occurrences: at a time of the stored series, the merged series
    holds the stored candle. *)
Lemma merged_find_old (t : Z) (df_old df_new : list candle) :
  In t (map time df_old) ->
  find (at_time t) (merged df_old df_new) = find (at_time t) df_old.
Proof.
  intros Ht. unfold merged.
  destruct df_old as [|c l] eqn:Hold; [destruct Ht|]. rewrite <- Hold.
  rewrite (find_perm_unique t (drop_duplicates (df_old ++ df_new))).
  - unfold drop_duplicates. rewrite find_drop_dup_aux by (intros []).
    apply find_app_first. apply in_map_iff in Ht as (x & Hx & Hin).
    exists x. split; [rewrite Hold; exact Hin|]. unfold at_time. now apply Z.eqb_eq.
  - apply drop_dup_aux_spec.
  - symmetry. apply sort_values_perm.
Qed.

Section Shape.

Variable ex : exchange.
Variables symbol timeframe : string.

Lemma load_old_ok (filename : string) (w w1 : world) (df_old : list candle)
    (lt : option Z) :
  load_old filename w = (Ok (df_old, lt), w1) ->
  w_fs w1 = w_fs w /\ stored (w_fs w) filename df_old.
Proof.
  unfold load_old, bind, read_file, last_candle.
  destruct (w_fs w filename) as [rows|] eqn:Hf.
  - destruct (rev (map read_row rows)) as [|c l] eqn:Hr; intros H; inversion H; subst.
    split; [reflexivity|]. right. exists rows. repeat split; auto.
    intros ->. discriminate.
  - intros H; inversion H; subst. split; [reflexivity|]. left. now split.
Qed.

(** A run that completes with a valid timeframe rewrites the output file
    with the merge of the stored candles and the fetched ones. *)
Lemma main_completed (fuel : nat) (w w' : world) :
  in_valid timeframe = true ->
  main ex symbol timeframe fuel w = (Ok tt, w') ->
  exists df_old all,
    stored (w_fs w) (sanitize_filename symbol timeframe) df_old /\
    w_fs w' (sanitize_filename symbol timeframe)
      = Some (to_csv (merged df_old all)).
Proof.
  intros Hv Hrun. unfold main in Hrun. cbv zeta in Hrun.
  rewrite Hv in Hrun. cbn [negb] in Hrun.
  unfold bind at 1, print at 1 in Hrun.
  unfold bind at 1 in Hrun.
  match type of Hrun with
  | (match load_old ?f ?w1 with _ => _ end) = _ =>
      destruct (load_old f w1) as [[[df_old last_ts]|e|] w2] eqn:Hlo
  end; try discriminate.
  apply load_old_ok in Hlo as [Hfs2 Hst]. cbn [w_fs] in Hfs2.
  unfold bind at 1 in Hrun.
  match type of Hrun with
  | (match pagination _ _ _ ?fu ?st ?w3 with _ => _ end) = _ =>
      pose proof (pagination_no_write ex symbol timeframe fu st w3) as Hp;
      destruct (pagination ex symbol timeframe fu st w3) as [[all|e|] w4]
  end; try discriminate.
  exists df_old, all. split.
  - exact Hst.
  - unfold persist, bind, write_file, print in Hrun. inversion Hrun; subst.
    cbn [w_fs]. now rewrite String.eqb_refl.
Qed.

End Shape.

Lemma find_read_rows (t : Z) (F : csv) :
  option_map to_row (find (at_time t) (map read_row F)) = find (row_at_time t) F.
Proof.
  induction F as [|r F IH]; [reflexivity|]. cbn [map find].
  unfold at_time at 1, row_at_time at 1. cbn [read_row time].
  destruct (r_time r =? t); [|exact IH]. cbn. now rewrite to_row_read_row.
Qed.

Lemma map_time_read_rows (F : csv) : map time (map read_row F) = map r_time F.
Proof. induction F as [|r F IH]; cbn; [reflexivity|now rewrite IH]. Qed.

Lemma in_valid_spec (tf : string) : in_valid tf = true <-> In tf valid_timeframes.
Proof.
  unfold in_valid. rewrite existsb_exists. split.
  - intros (x & Hx & Heq). apply String.eqb_eq in Heq. now subst.
  - intros H. exists tf. split; [exact H|apply String.eqb_refl].
Qed.

Lemma fetch_attempts_all_fail (ex : exchange) (symbol timeframe : string)
    (since : Z) (mr : nat) (n : nat) :
  forall a w,
    (forall i, (i < n)%nat -> exists e,
        fetch_ohlcv ex (w_calls w + i) symbol timeframe since
          BYBIT_MAX_CANDLES_PER_FETCH = AFail e) ->
    exists w', fetch_attempts ex symbol timeframe since mr (seq a n) w
                 = (Ok None, w') /\
      (n <> 0%nat -> exists e, In (AttemptError (a + n - 1) mr e) (w_out w')).
Proof.
  induction n as [|n IH]; intros a w Hfail.
  - eexists. split; [reflexivity|]. intros []; reflexivity.
  - destruct (Hfail 0%nat ltac:(lia)) as [e He]. rewrite Nat.add_0_r in He.
    cbn [seq fetch_attempts]. cbv [bind do_sleep call_fetch_ohlcv ret print].
    cbn [w_fs w_calls w_clock w_requests w_sleeps w_out].
    rewrite He. cbn [w_fs w_calls w_clock w_requests w_sleeps w_out].
    fold (@bind unit (option (list candle))).
    match goal with
    | |- exists w', fetch_attempts _ _ _ _ _ _ ?w2 = _ /\ _ =>
        destruct (IH (S a) w2) as (w' & Hrun & Hout)
    end.
    + intros i Hi. destruct (Hfail (S i) ltac:(lia)) as [e' He'].
      exists e'. cbn [w_calls]. rewrite <- He'. f_equal. lia.
    + exists w'. split; [exact Hrun|]. intros _.
      destruct n as [|n].
      * cbn in Hrun. inversion Hrun; subst. exists e. cbn [w_out].
        replace (a + 1 - 1)%nat with a by lia. apply in_or_app. right. now left.
      * destruct (Hout ltac:(discriminate)) as [e' Hin]. exists e'.
        replace (a + S (S n) - 1)%nat with (S a + S n - 1)%nat by lia. exact Hin.
Qed.

(** ** Claims *)

(** C1. A run that completes with a valid timeframe writes the output file,
    and the rows of that file are strictly ascending by [time]: for adjacent
    rows [i], [i+1], [time[i] < time[i+1]]; so every time present is the
    time of exactly one row. *)
Theorem persisted_series_strictly_sorted (ex : exchange)
    (symbol timeframe : string) (fuel : nat) (w w' : world) :
  in_valid timeframe = true ->
  main ex symbol timeframe fuel w = (Ok tt, w') ->
  exists F, w_fs w' (sanitize_filename symbol timeframe) = Some F /\
    (forall i a b, nth_error F i = Some a -> nth_error F (S i) = Some b ->
       r_time a < r_time b) /\
    (forall t, In t (map r_time F) ->
       List.length (filter (fun r => r_time r =? t) F) = 1%nat).
Proof.
  intros Hv Hrun.
  destruct (main_completed ex symbol timeframe fuel w w' Hv Hrun)
    as (df_old & all & _ & Hfile).
  exists (to_csv (merged df_old all)). split; [exact Hfile|].
  destruct (merged_nodup_sorted df_old all) as [Hnd Hs].
  assert (Hkeys : map r_time (to_csv (merged df_old all))
                  = map time (merged df_old all)).
  { unfold to_csv. rewrite map_map. reflexivity. }
  split.
  - apply Sorted_nth_error.
    apply (Sorted_map_rel (fun a b => time a < time b)); [intros a b H; exact H|].
    now apply sorted_strict.
  - intros t Ht. apply NoDup_count_one; [rewrite Hkeys; exact Hnd | exact Ht].
Qed.

(** C2. When all 5 attempts of a [fetch_candles] call fail, it raises the
    exhaustion error ([ConnectionError], the spec's [FetchExhaustedError])
    after printing the report of attempt 5 of 5; and a run of [main] in which
    that report is printed ends in that error, having left the file system,
    hence the output file, unchanged. *)
Theorem exhausted_fetch_aborts_run (ex : exchange) (symbol timeframe : string) :
  (forall since w,
     (forall i, (i < 5)%nat -> exists e,
        fetch_ohlcv ex (w_calls w + i) symbol timeframe since
          BYBIT_MAX_CANDLES_PER_FETCH = AFail e) ->
     exists w', fetch_candles ex symbol timeframe since 5 w
                  = (Exc (ConnectionError (exhausted_msg 5)), w') /\
                exhausted (w_out w')) /\
  (forall fuel w r w',
     main ex symbol timeframe fuel w = (r, w') ->
     ~ exhausted (w_out w) -> exhausted (w_out w') ->
     r = Exc (ConnectionError (exhausted_msg 5)) /\ w_fs w' = w_fs w).
Proof.
  split.
  - intros since w Hfail.
    destruct (fetch_attempts_all_fail ex symbol timeframe since 5 5 1 w Hfail)
      as (w' & Hrun & Hout).
    exists w'. unfold fetch_candles, bind. rewrite Hrun. split; [reflexivity|].
    exact (Hout ltac:(discriminate)).
  - intros fuel w r w' Hrun Hnot Hex.
    destruct (main_aborts ex symbol timeframe fuel w r w' Hrun Hex)
      as [H|Hr]; [contradiction|].
    split; [exact Hr|].
    apply (main_unfinished_no_write ex symbol timeframe fuel w w' r Hrun).
    now rewrite Hr.
Qed.

(** C3. If the exchange fails exactly [k < max_retries] times and then
    returns a page, [fetch_candles] returns that page unchanged, and the
    backoff sleeps it made (the rate-limit delays apart) total
    [2^1 + ... + 2^k] seconds, so at least that much. *)
Theorem fetch_candles_retry_backoff (ex : exchange) (symbol timeframe : string)
    (since : Z) (max_retries k : nat) (P : list candle) (w : world) :
  (k < max_retries)%nat ->
  (forall i, (i < k)%nat -> exists e,
      fetch_ohlcv ex (w_calls w + i) symbol timeframe since
        BYBIT_MAX_CANDLES_PER_FETCH = AFail e) ->
  fetch_ohlcv ex (w_calls w + k) symbol timeframe since
    BYBIT_MAX_CANDLES_PER_FETCH = APage P ->
  exists w' s,
    fetch_candles ex symbol timeframe since max_retries w = (Ok P, w') /\
    w_sleeps w' = w_sleeps w ++ s /\
    backoff_total s = sum_pow 1 k /\
    sum_pow 1 k <= backoff_total s.
Proof.
  intros Hk Hfail Hpage.
  destruct (fetch_attempts_fail_then_page ex symbol timeframe since max_retries
              k P 1 max_retries w Hk Hfail Hpage) as (w' & s & Hrun & Hs & Hb & _).
  exists w', s. unfold fetch_candles, bind. rewrite Hrun.
  repeat split; [exact Hs|exact Hb|lia].
Qed.

(** C9. For a timeframe outside the allowed list, [main] prints the error
    naming the value and the allowed list and returns normally (exit status
    0), with no exchange call, no sleep and no file written. *)
Theorem invalid_timeframe_handled (ex : exchange) (symbol timeframe : string)
    (fuel : nat) (w : world) :
  ~ In timeframe valid_timeframes ->
  main ex symbol timeframe fuel w =
    (Ok tt, mkWorld (w_fs w) (w_calls w) (w_clock w) (w_requests w)
              (w_sleeps w)
              (w_out w ++ [Banner; ErrorLine (invalid_timeframe_msg timeframe)])) /\
  render_error (invalid_timeframe_msg timeframe) =
    ("🚨 Error: Invalid timeframe '" ++ timeframe ++ "'. Try: ['1m', '3m', "
     ++ "'5m', '15m', '30m', '1h', '2h', '4h', '8h', '12h', '1d', '3d', "
     ++ "'1w', '1M']")%string.
Proof.
  intros Hnot. split.
  - assert (Hv : in_valid timeframe = false).
    { destruct (in_valid timeframe) eqn:E; [|reflexivity].
      exfalso. apply Hnot. now apply in_valid_spec. }
    unfold main, bind, print. rewrite Hv. cbn. now rewrite <- app_assoc.
  - reflexivity.
Qed.

(** C10. In a completed run over an existing file, at every time of the
    stored rows the rewritten file holds the stored row: the old rows come
    first in the concatenation and [drop_duplicates] keeps the first
    occurrence, so a stored row wins over a fetched candle of the same
    time. *)
Theorem stored_row_wins_overlap (ex : exchange) (symbol timeframe : string)
    (fuel : nat) (w w' : world) (F0 F1 : csv) (t : Z) :
  in_valid timeframe = true ->
  main ex symbol timeframe fuel w = (Ok tt, w') ->
  w_fs w (sanitize_filename symbol timeframe) = Some F0 ->
  w_fs w' (sanitize_filename symbol timeframe) = Some F1 ->
  In t (map r_time F0) ->
  find (row_at_time t) F1 = find (row_at_time t) F0.
Proof.
  intros Hv Hrun H0 H1 Ht.
  destruct (main_completed ex symbol timeframe fuel w w' Hv Hrun)
    as (df_old & all & Hst & Hfile).
  rewrite H1 in Hfile. inversion Hfile; subst F1.
  destruct Hst as [[Hn _]|(rows & Hr & _ & Hold)]; [congruence|].
  rewrite H0 in Hr. inversion Hr; subst rows df_old.
  rewrite find_to_csv, merged_find_old.
  - apply find_read_rows.
  - now rewrite map_time_read_rows.
Qed.

(** ** Concrete runs *)

Lemma bind_ok_inv {A B} (m : M A) (k : A -> M B) (w w' : world) (b : B) :
  bind m k w = (Ok b, w') ->
  exists a w1, m w = (Ok a, w1) /\ k a w1 = (Ok b, w').
Proof.
  unfold bind. destruct (m w) as [[a|e|] w1]; intros H; try discriminate.
  now exists a, w1.
Qed.

Lemma fetch_attempts_page (ex : exchange) (symbol timeframe : string)
    (since : Z) (mr : nat) (l : list nat) :
  forall w w1 p,
    fetch_attempts ex symbol timeframe since mr l w = (Ok (Some p), w1) ->
    exists i, (w_calls w <= i < w_calls w1)%nat /\
      fetch_ohlcv ex i symbol timeframe since BYBIT_MAX_CANDLES_PER_FETCH
        = APage p /\
      w_clock w1 = w_clock w.
Proof.
  induction l as [|a l IH]; intros w w1 p Hrun; [discriminate|].
  cbn [fetch_attempts] in Hrun.
  cbv [bind do_sleep call_fetch_ohlcv ret print] in Hrun.
  cbn [w_fs w_calls w_clock w_requests w_sleeps w_out] in Hrun.
  destruct (fetch_ohlcv ex (w_calls w) symbol timeframe since _) eqn:Hf.
  - cbn [w_fs w_calls w_clock w_requests w_sleeps w_out] in Hrun.
    fold (@bind unit (option (list candle))) in Hrun.
    apply IH in Hrun as (i & Hi & Hp & Hc). cbn [w_calls w_clock] in Hi, Hc.
    exists i. repeat split; [lia|lia|exact Hp|exact Hc].
  - inversion Hrun; subst. exists (w_calls w). cbn [w_calls w_clock].
    repeat split; [lia|lia|exact Hf].
Qed.

Lemma fetch_candles_page (ex : exchange) (symbol timeframe : string)
    (since : Z) (mr : nat) (w w1 : world) (p : list candle) :
  fetch_candles ex symbol timeframe since mr w = (Ok p, w1) ->
  exists i, (w_calls w <= i < w_calls w1)%nat /\
    fetch_ohlcv ex i symbol timeframe since BYBIT_MAX_CANDLES_PER_FETCH = APage p /\
    w_clock w1 = w_clock w.
Proof.
  intros H. apply bind_ok_inv in H as (o & w2 & H1 & H2).
  destruct o as [q|]; [|discriminate]. inversion H2; subst.
  eapply fetch_attempts_page. exact H1.
Qed.

(** C4 (failing input). A page made of the single unclosed candle is
    emptied by the trim and [candles[-1]] then raises [IndexError]: at line
    96 on the first page, at line 91 on a later one. *)
Theorem trimmed_empty_page_raises :
  fst (main (paged_exchange [[sample_candle 2000]] 1000) btc "5m" 10
         empty_world) = Exc IndexError /\
  fst (main (paged_exchange [[sample_candle 500]; [sample_candle 2000]] 1000)
         btc "5m" 10 empty_world) = Exc IndexError.
Proof. split; vm_compute; reflexivity. Qed.

(** C5 (counterexample). A page with two candles at or after the server
    time: only the last is trimmed, the run completes, and the candle at
    [10 >= 5] is persisted. *)
Theorem unclosed_candle_persisted :
  fst (main (paged_exchange [[sample_candle 10; sample_candle 20]] 5) btc "5m"
         10 empty_world) = Ok tt /\
  w_clock (snd (main (paged_exchange [[sample_candle 10; sample_candle 20]] 5)
                  btc "5m" 10 empty_world)) = 1%nat /\
  milliseconds (paged_exchange [[sample_candle 10; sample_candle 20]] 5) 0 <= 10 /\
  exists F, w_fs (snd (main (paged_exchange [[sample_candle 10; sample_candle 20]] 5)
                        btc "5m" 10 empty_world)) btc_file = Some F /\
            In 10 (map r_time F).
Proof.
  split; [vm_compute; reflexivity|]. split; [vm_compute; reflexivity|].
  split; [vm_compute; discriminate|].
  eexists. split; [vm_compute; reflexivity|]. vm_compute. now left.
Qed.

(** C5 (amended). In an iteration of the loop that accepts its page, only
    the page's last candle is compared with the server time read after the
    fetch, and only that candle is dropped, when its time is at or after
    that server time; so the candles the iteration accepts are all earlier
    than the server time exactly when every other candle of the page is. *)
Theorem accepted_candles_before_server_time (ex : exchange)
    (symbol timeframe : string) (st st' : loop_state) (w w' : world) :
  loop_body ex symbol timeframe st w = (Ok (Continue st'), w') ->
  exists i page_init c_last accepted,
    (w_calls w <= i < w_calls w')%nat /\
    fetch_ohlcv ex i symbol timeframe (since_of st) BYBIT_MAX_CANDLES_PER_FETCH
      = APage (page_init ++ [c_last]) /\
    w_clock w' = S (w_clock w) /\
    all_candles st' = all_candles st ++ accepted /\
    accepted = (if milliseconds ex (w_clock w) <=? time c_last
                then page_init else page_init ++ [c_last]) /\
    ((forall c, In c accepted -> time c < milliseconds ex (w_clock w)) <->
     (forall c, In c page_init -> time c < milliseconds ex (w_clock w))).
Proof.
  intros Hrun. unfold loop_body in Hrun. cbv zeta in Hrun.
  apply bind_ok_inv in Hrun as (u & w1 & H1 & Hrun).
  unfold utc_check in H1. destruct (utc_in_range _); inversion H1; subst; clear H1.
  apply bind_ok_inv in Hrun as (u' & w2 & H2 & Hrun). inversion H2; subst; clear H2.
  apply bind_ok_inv in Hrun as (page & w3 & H3 & Hrun).
  apply fetch_candles_page in H3 as (i & Hi & Hpage & Hclock3).
  cbn [w_calls w_clock] in Hi, Hclock3.
  destruct page as [|c0 page0]; [apply bind_ok_inv in Hrun as (? & ? & ? & H);
                                   inversion H|].
  apply bind_ok_inv in Hrun as (now & w4 & H4 & Hrun). inversion H4; subst; clear H4.
  apply bind_ok_inv in Hrun as (lastc & w5 & H5 & Hrun). unfold last_candle in H5.
  destruct (rev (c0 :: page0)) as [|cl rest] eqn:Hrev; inversion H5; subst; clear H5.
  assert (Hpg : c0 :: page0 = rev rest ++ [lastc]).
  { rewrite <- (rev_involutive (c0 :: page0)), Hrev. reflexivity. }
  set (now := milliseconds ex (w_clock w3)) in *.
  apply bind_ok_inv in Hrun as (cands & w6 & H6 & Hrun).
  assert (Hcands : cands = (if now <=? time lastc then rev rest
                            else rev rest ++ [lastc]) /\
                   w_calls w6 = w_calls w3 /\ w_clock w6 = S (w_clock w3)).
  { destruct (now <=? time lastc); cbv [bind print ret] in H6;
      inversion H6; subst; cbn [w_calls w_clock].
    - assert (Hrl : removelast (c0 :: page0) = rev rest)
        by (rewrite Hpg; apply removelast_last).
      exact (conj Hrl (conj eq_refl eq_refl)).
    - rewrite Hpg. auto. }
  destruct Hcands as (Hcands & Hcalls6 & Hclock6).
  apply bind_ok_inv in Hrun as (stalled & w7 & H7 & Hrun).
  assert (Hw7 : w_calls w7 = w_calls w6 /\ w_clock w7 = w_clock w6).
  { destruct (truthy (previous_last st)).
    - apply bind_ok_inv in H7 as (c & w8 & H8 & H9). unfold last_candle in H8.
      destruct (rev cands); inversion H8; subst; inversion H9; subst; auto.
    - inversion H7; subst; auto. }
  destruct stalled.
  { apply bind_ok_inv in Hrun as (? & ? & ? & H); inversion H. }
  apply bind_ok_inv in Hrun as (cl' & w8 & H8 & Hrun). unfold last_candle in H8.
  destruct (rev cands) as [|cz cs]; cbv [ret raise] in H8; [discriminate|].
  injection H8 as Hcl Hw8. subst cl' w8.
  apply bind_ok_inv in Hrun as (u2 & w9 & H9 & Hrun).
  unfold utc_check in H9.
  destruct (utc_in_range _); cbv [ret raise] in H9; [|discriminate].
  injection H9 as _ Hw9. subst w9.
  apply bind_ok_inv in Hrun as (u3 & w10 & H10 & Hrun).
  cbv [print] in H10. injection H10 as _ Hw10. subst w10.
  cbv [ret] in Hrun. injection Hrun as Hst Hw. subst st' w'.
  exists i, (rev rest), lastc, cands. cbn [w_calls w_clock all_candles].
  destruct Hw7 as [Hc7 Hk7].
  unfold now in Hcands. rewrite Hclock3 in Hcands.
  repeat split.
  - lia.
  - lia.
  - rewrite <- Hpg. exact Hpage.
  - rewrite Hk7, Hclock6, Hclock3. reflexivity.
  - exact Hcands.
  - intros Hall c Hc. apply Hall. subst cands.
    destruct (milliseconds ex (w_clock w1) <=? time lastc); [exact Hc|]. apply in_or_app. now left.
  - intros Hinit c Hc. subst cands.
    destruct (milliseconds ex (w_clock w1) <=? time lastc) eqn:Hn; [now apply Hinit|].
    apply in_app_or in Hc as [Hc|[<-|[]]]; [now apply Hinit|].
    apply Z.leb_gt in Hn. exact Hn.
Qed.

Lemma stuck_step (acc : list candle) (pl lt : option Z) (w : world) :
  truthy pl = false -> utc_in_range (since_of (mkLoop acc pl lt)) = true ->
  exists w', loop_body stuck_exchange btc "5m" (mkLoop acc pl lt) w
             = (Ok (Continue (mkLoop (acc ++ [sample_candle 0]) (Some 0) (Some 1))), w').
Proof.
  intros Hpl Hu. eexists. unfold loop_body. cbv zeta.
  unfold bind at 1, utc_check. rewrite Hu.
  cbv [bind print ret fetch_candles fetch_attempts seq do_sleep call_fetch_ohlcv
       call_milliseconds last_candle raise stuck_exchange fetch_ohlcv milliseconds
       previous_last all_candles rev app].
  rewrite Hpl. reflexivity.
Qed.

Lemma stuck_pagination (fuel : nat) :
  forall acc w,
    fst (pagination stuck_exchange btc "5m" fuel (mkLoop acc (Some 0) (Some 1)) w)
    = Diverge.
Proof.
  induction fuel as [|fuel IH]; intros acc w; [reflexivity|].
  cbn [pagination]. unfold bind at 1.
  destruct (stuck_step acc (Some 0) (Some 1) w eq_refl eq_refl) as [w' Hs].
  rewrite Hs. apply IH.
Qed.

(** C6 (failing input). The stall guard [if previous_last and ...] reads a
    [previous_last] of 0 as absent: against an exchange that keeps
    returning the same candle at time 0, the loop never ends, whatever the
    fuel. *)
Theorem stall_guard_skipped_at_time_zero (fuel : nat) :
  fst (main stuck_exchange btc "5m" fuel empty_world) = Diverge.
Proof.
  destruct fuel as [|fuel]; [vm_compute; reflexivity|].
  unfold main. cbv zeta. unfold bind at 1, print at 1.
  change (in_valid "5m") with true. cbn [negb].
  unfold bind at 1.
  match goal with
  | |- fst (match load_old ?f ?w1 with _ => _ end) = _ =>
      replace (load_old f w1) with
        (Ok ([] : list candle, @None Z),
         mkWorld (w_fs w1) (w_calls w1) (w_clock w1) (w_requests w1)
                 (w_sleeps w1) (w_out w1 ++ [NewCsv f])) by reflexivity
  end.
  cbv iota beta. unfold bind at 1. cbn [pagination]. unfold bind at 1.
  match goal with
  | |- context [loop_body stuck_exchange btc "5m" (mkLoop [] None None) ?w2] =>
      destruct (stuck_step [] None None w2 eq_refl eq_refl) as [w3 Hs];
      rewrite Hs
  end.
  cbv iota beta.
  match goal with
  | |- context [pagination stuck_exchange btc "5m" fuel ?st ?w4] =>
      generalize (stuck_pagination fuel ([] ++ [sample_candle 0]) w4);
      destruct (pagination stuck_exchange btc "5m" fuel st w4) as [[?|?|] ?]
  end; cbn; congruence.
Qed.

(** C7 (failing input). The first page of the first run ends at -1 ms, so
    the next [last_timestamp] is 0, which [if last_timestamp] reads as
    absent: the run restarts from the epoch floor and skips the candle at
    5 ms. The second run starts from the stored -1 ms, fetches that candle
    and appends it: both runs complete and the file grows from 1001 to 1002
    rows although the history did not change. *)
Theorem rerun_appends_skipped_candle :
  fst first_run = Ok tt /\ fst second_run = Ok tt /\
  option_map (@List.length csvrow) (w_fs (snd first_run) btc_file) = Some 1001%nat /\
  option_map (@List.length csvrow) (w_fs (snd second_run) btc_file) = Some 1002%nat.
Proof. repeat split; vm_compute; reflexivity. Qed.

(** C8 (failing input). The stored file's last row is at time 0:
    [since = last_timestamp if last_timestamp else ...] reads 0 as absent,
    and the first request asks for candles since the epoch floor, not
    since 0. *)
Theorem stored_time_zero_restarts_from_floor :
  w_requests (snd (main (paged_exchange [] 1700000000000) btc "5m" 10
                    (world_with_file btc_file [to_row (sample_candle 0)])))
    = [epoch_floor] /\
  epoch_floor <> 0.
Proof. split; [vm_compute; reflexivity|discriminate]. Qed.

(** ** Witnesses *)

Lemma persisted_series_strictly_sorted_witness :
  exists w', main overlap_exchange btc "5m" 10 (world_with_file btc_file stored_rows)
               = (Ok tt, w') /\
    exists F, w_fs w' (sanitize_filename btc "5m") = Some F /\
      (forall i a b, nth_error F i = Some a -> nth_error F (S i) = Some b ->
         r_time a < r_time b) /\
      (forall t, In t (map r_time F) ->
         List.length (filter (fun r => r_time r =? t) F) = 1%nat).
Proof.
  exists (snd (main overlap_exchange btc "5m" 10 (world_with_file btc_file stored_rows))).
  split; [vm_compute; reflexivity|].
  apply (persisted_series_strictly_sorted overlap_exchange btc "5m" 10
           (world_with_file btc_file stored_rows)); vm_compute; reflexivity.
Defined.

Lemma exhausted_fetch_aborts_run_witness :
  (exists w', fetch_candles failing_exchange btc "5m" epoch_floor 5 empty_world
                = (Exc (ConnectionError (exhausted_msg 5)), w') /\
              exhausted (w_out w')) /\
  (exists r w', main failing_exchange btc "5m" 3 empty_world = (r, w') /\
     ~ exhausted (w_out empty_world) /\ exhausted (w_out w') /\
     r = Exc (ConnectionError (exhausted_msg 5)) /\ w_fs w' = w_fs empty_world).
Proof.
  destruct (exhausted_fetch_aborts_run failing_exchange btc "5m") as [H1 H2].
  split.
  - apply H1. intros i _. exists "timeout"%string. reflexivity.
  - exists (fst (main failing_exchange btc "5m" 3 empty_world)),
           (snd (main failing_exchange btc "5m" 3 empty_world)).
    split; [vm_compute; reflexivity|].
    assert (Hn : ~ exhausted (w_out empty_world)) by (intros [e []]).
    assert (He : exhausted (w_out (snd (main failing_exchange btc "5m" 3 empty_world))))
      by (exists "timeout"%string; vm_compute; tauto).
    split; [exact Hn|]. split; [exact He|].
    refine (H2 3%nat empty_world _ _ _ Hn He). vm_compute. reflexivity.
Defined.

Lemma fetch_candles_retry_backoff_witness :
  exists w' s,
    fetch_candles flaky_exchange btc "5m" epoch_floor 5 empty_world
      = (Ok [sample_candle 100], w') /\
    w_sleeps w' = w_sleeps empty_world ++ s /\
    backoff_total s = sum_pow 1 2 /\ sum_pow 1 2 <= backoff_total s.
Proof.
  apply (fetch_candles_retry_backoff flaky_exchange btc "5m" epoch_floor 5 2
           [sample_candle 100] empty_world).
  - lia.
  - intros i Hi. exists "timeout"%string. cbn [w_calls empty_world].
    destruct i as [|[|i]]; [reflexivity|reflexivity|lia].
  - reflexivity.
Defined.

Lemma accepted_candles_before_server_time_witness :
  exists st' w',
    loop_body (paged_exchange [[sample_candle 10; sample_candle 20]] 15) btc "5m"
      (mkLoop [] None None) empty_world = (Ok (Continue st'), w') /\
    exists i page_init c_last accepted,
      (w_calls empty_world <= i < w_calls w')%nat /\
      fetch_ohlcv (paged_exchange [[sample_candle 10; sample_candle 20]] 15) i
        btc "5m" (since_of (mkLoop [] None None)) BYBIT_MAX_CANDLES_PER_FETCH
        = APage (page_init ++ [c_last]) /\
      w_clock w' = S (w_clock empty_world) /\
      all_candles st' = all_candles (mkLoop [] None None) ++ accepted /\
      accepted = (if milliseconds (paged_exchange [[sample_candle 10; sample_candle 20]] 15)
                       (w_clock empty_world) <=? time c_last
                  then page_init else page_init ++ [c_last]) /\
      ((forall c, In c accepted ->
          time c < milliseconds (paged_exchange [[sample_candle 10; sample_candle 20]] 15)
                     (w_clock empty_world)) <->
       (forall c, In c page_init ->
          time c < milliseconds (paged_exchange [[sample_candle 10; sample_candle 20]] 15)
                     (w_clock empty_world))).
Proof.
  exists (mkLoop [sample_candle 10] (Some 10) (Some 11)),
         (snd (loop_body (paged_exchange [[sample_candle 10; sample_candle 20]] 15)
                 btc "5m" (mkLoop [] None None) empty_world)).
  split; [vm_compute; reflexivity|].
  apply accepted_candles_before_server_time. vm_compute. reflexivity.
Defined.

Lemma invalid_timeframe_handled_witness :
  main (paged_exchange [] 0) btc "5x" 10 empty_world =
    (Ok tt, mkWorld (w_fs empty_world) (w_calls empty_world) (w_clock empty_world)
              (w_requests empty_world) (w_sleeps empty_world)
              (w_out empty_world ++ [Banner; ErrorLine (invalid_timeframe_msg "5x")])) /\
  render_error (invalid_timeframe_msg "5x") =
    ("🚨 Error: Invalid timeframe '" ++ "5x" ++ "'. Try: ['1m', '3m', "
     ++ "'5m', '15m', '30m', '1h', '2h', '4h', '8h', '12h', '1d', '3d', "
     ++ "'1w', '1M']")%string.
Proof.
  apply invalid_timeframe_handled.
  intros H. apply in_valid_spec in H. vm_compute in H. discriminate.
Defined.

Lemma stored_row_wins_overlap_witness :
  exists w' F1,
    main overlap_exchange btc "5m" 10 (world_with_file btc_file stored_rows)
      = (Ok tt, w') /\
    w_fs w' (sanitize_filename btc "5m") = Some F1 /\
    find (row_at_time 300) F1 = find (row_at_time 300) stored_rows.
Proof.
  exists (snd (main overlap_exchange btc "5m" 10 (world_with_file btc_file stored_rows))).
  eexists. split; [vm_compute; reflexivity|]. split; [vm_compute; reflexivity|].
  apply (stored_row_wins_overlap overlap_exchange btc "5m" 10
           (world_with_file btc_file stored_rows)
           (snd (main overlap_exchange btc "5m" 10
                   (world_with_file btc_file stored_rows))));
    [reflexivity|vm_compute; reflexivity|reflexivity|vm_compute; reflexivity|].
  vm_compute. tauto.
Defined.

(** ** Further properties of the program *)

Lemma list_ascii_append (a b : string) :
  list_ascii_of_string (a ++ b) = list_ascii_of_string a ++ list_ascii_of_string b.
Proof. induction a as [|c a IH]; cbn; [reflexivity|now rewrite IH]. Qed.

Lemma list_ascii_replace_char (a b : ascii) (s : string) :
  list_ascii_of_string (replace_char a b s)
  = map (fun c => if Ascii.eqb c a then b else c) (list_ascii_of_string s).
Proof. induction s as [|c s IH]; cbn; [reflexivity|now rewrite IH]. Qed.

Lemma list_ascii_sanitize_base (s : string) :
  list_ascii_of_string (replace_char ":" "-" (replace_char "/" "-" s))
  = map dash_separators (list_ascii_of_string s).
Proof.
  rewrite !list_ascii_replace_char, map_map. apply map_ext. intros c.
  unfold dash_separators. destruct (Ascii.eqb_spec c "/"); subst; [reflexivity|].
  destruct (Ascii.eqb_spec c ":"); reflexivity.
Qed.

Lemma dash_separators_eq (c1 c2 : ascii) :
  dash_separators c1 = dash_separators c2 <->
  c1 = c2 \/ (In c1 separators /\ In c2 separators).
Proof.
  unfold dash_separators, separators.
  destruct (Ascii.eqb_spec c1 "/"), (Ascii.eqb_spec c1 ":"),
           (Ascii.eqb_spec c2 "/"), (Ascii.eqb_spec c2 ":"); subst; cbn;
    split; intros H; intuition congruence.
Qed.

Lemma list_ascii_inj (a b : string) :
  list_ascii_of_string a = list_ascii_of_string b -> a = b.
Proof.
  intros H. rewrite <- (string_of_list_ascii_of_string a),
    <- (string_of_list_ascii_of_string b). now rewrite H.
Qed.

Lemma string_append_inj_r (a b x : string) : (a ++ x = b ++ x)%string -> a = b.
Proof.
  intros H. apply (f_equal list_ascii_of_string) in H.
  rewrite !list_ascii_append in H. apply app_inv_tail in H.
  now apply list_ascii_inj.
Qed.

Lemma map_eq_Forall2 {A B} (f : A -> B) (R : A -> A -> Prop) (l1 l2 : list A) :
  (forall x y, f x = f y <-> R x y) -> map f l1 = map f l2 <-> Forall2 R l1 l2.
Proof.
  intros Hf. revert l2.
  induction l1 as [|x l1 IH]; intros [|y l2]; cbn.
  - split; [constructor|reflexivity].
  - split; [discriminate|intros H; inversion H].
  - split; [discriminate|intros H; inversion H].
  - split.
    + intros H. injection H as H1 H2. constructor; [now apply Hf|now apply IH].
    + intros H. inversion H; subst. f_equal; [now apply Hf|now apply IH].
Qed.

(** X1. [sanitize_filename] turns every '/' and ':' of the symbol into '-', keeps every other character, and appends '_', the timeframe and '.csv'; for a valid timeframe the name has no '/'. *)
Theorem sanitize_filename_shape (symbol timeframe : string) :
  exists base,
    sanitize_filename symbol timeframe = (base ++ "_" ++ timeframe ++ ".csv")%string /\
    list_ascii_of_string base = map dash_separators (list_ascii_of_string symbol) /\
    (In timeframe valid_timeframes ->
     ~ In "/"%char (list_ascii_of_string (sanitize_filename symbol timeframe))).
Proof.
  exists (replace_char ":" "-" (replace_char "/" "-" symbol)).
  split; [reflexivity|]. split; [apply list_ascii_sanitize_base|].
  intros Htf. unfold sanitize_filename.
  rewrite !list_ascii_append, list_ascii_sanitize_base.
  intros Hin. apply in_app_or in Hin as [Hin|Hin].
  - apply in_map_iff in Hin as (c & Hc & _). unfold dash_separators in Hc.
    destruct (Ascii.eqb_spec c "/"), (Ascii.eqb_spec c ":"); cbn in Hc;
      congruence.
  - cbn in Htf.
    repeat (destruct Htf as [<-|Htf]; [cbn in Hin; intuition discriminate|]).
    destruct Htf.
Qed.

(** X2. Two symbols give the same file name for a timeframe exactly when they have the same length and agree at every position, except that '/', ':' and '-' are interchangeable. *)
Theorem sanitize_filename_collision (s1 s2 timeframe : string) :
  sanitize_filename s1 timeframe = sanitize_filename s2 timeframe <->
  Forall2 (fun c1 c2 => c1 = c2 \/ (In c1 separators /\ In c2 separators))
    (list_ascii_of_string s1) (list_ascii_of_string s2).
Proof.
  rewrite <- (map_eq_Forall2 dash_separators) by apply dash_separators_eq.
  rewrite <- !list_ascii_sanitize_base. unfold sanitize_filename. split.
  - intros H. apply string_append_inj_r in H. now rewrite H.
  - intros H. apply list_ascii_inj in H. now rewrite H.
Qed.



Lemma drop_dup_aux_nodup (l : list candle) : forall seen,
  NoDup (map time l) -> (forall c, In c l -> ~ In (time c) seen) ->
  drop_dup_aux seen l = l.
Proof.
  induction l as [|c l IH]; intros seen Hnd Hs; cbn [drop_dup_aux]; [reflexivity|].
  cbn [map] in Hnd. inversion Hnd as [|? ? Hnin Hnd']; subst.
  destruct (existsb (Z.eqb (time c)) seen) eqn:E.
  - exfalso. apply existsb_exists in E as (u & Hu & Heq). apply Z.eqb_eq in Heq.
    subst u. exact (Hs c (or_introl eq_refl) Hu).
  - f_equal. apply IH; [exact Hnd'|]. intros d Hd [Heq|Hin].
    + apply Hnin. rewrite Heq. now apply in_map.
    + exact (Hs d (or_intror Hd) Hin).
Qed.

Lemma sort_values_sorted_id (l : list candle) : Sorted time_le l -> sort_values l = l.
Proof.
  induction l as [|c l IH]; intros Hs; cbn [sort_values]; [reflexivity|].
  apply Sorted_inv in Hs as [Hs Hd]. rewrite (IH Hs).
  destruct l as [|d l]; cbn [insert_by_time]; [reflexivity|].
  apply HdRel_inv in Hd. unfold time_le in Hd. apply Z.leb_le in Hd. now rewrite Hd.
Qed.



Lemma merged_sorted_nil (df : list candle) :
  Sorted time_le df -> NoDup (map time df) -> merged df [] = df.
Proof.
  intros Hs Hnd. unfold merged. destruct df as [|c l]; [reflexivity|].
  rewrite app_nil_r. unfold drop_duplicates.
  rewrite drop_dup_aux_nodup by first [exact Hnd | intros ? ? []].
  now apply sort_values_sorted_id.
Qed.

Lemma drop_dup_aux_times (l : list candle) : forall seen t,
  In t (map time l) -> In t seen \/ In t (map time (drop_dup_aux seen l)).
Proof.
  induction l as [|c l IH]; intros seen t Ht; [destruct Ht|].
  cbn [map] in Ht. cbn [drop_dup_aux].
  destruct (existsb (Z.eqb (time c)) seen) eqn:E.
  - destruct Ht as [<-|Ht].
    + left. apply existsb_exists in E as (u & Hu & Heq). apply Z.eqb_eq in Heq.
      now subst.
    + now apply IH.
  - cbn [map]. destruct Ht as [<-|Ht]; [right; now left|].
    destruct (IH (time c :: seen) t Ht) as [[<-|H]|H];
      [right; now left|now left|right; now right].
Qed.

Lemma find_app_skip {A} (f : A -> bool) (l1 l2 : list A) :
  (forall x, In x l1 -> f x = false) -> find f (l1 ++ l2) = find f l2.
Proof.
  induction l1 as [|a l1 IH]; intros H; [reflexivity|].
  cbn [app find]. rewrite (H a (or_introl eq_refl)).
  apply IH. intros x Hx. apply H. now right.
Qed.

(** X5. Every candle of the merged frame comes from the stored or the fetched candles, and its set of timestamps is the union of both sets. *)
Theorem merged_times (df_old df_new : list candle) :
  incl (merged df_old df_new) (df_old ++ df_new) /\
  (forall t, In t (map time (merged df_old df_new)) <->
             In t (map time df_old) \/ In t (map time df_new)).
Proof.
  assert (Hkey : forall l,
    incl (sort_values (drop_duplicates l)) l /\
    (forall t, In t (map time (sort_values (drop_duplicates l))) <-> In t (map time l))).
  { intros l. split.
    - intros c Hc. apply (Permutation_in _ (sort_values_perm _)) in Hc.
      destruct (drop_dup_aux_spec l []) as (_ & _ & Hi). now apply Hi.
    - intros t. split; intros Ht.
      + apply in_map_iff in Ht as (c & <- & Hc).
        apply (Permutation_in _ (sort_values_perm _)) in Hc.
        destruct (drop_dup_aux_spec l []) as (_ & _ & Hi). apply in_map. now apply Hi.
      + destruct (drop_dup_aux_times l [] t Ht) as [[]|H].
        apply (Permutation_in _ (Permutation_map time (Permutation_sym (sort_values_perm _)))).
        exact H. }
  unfold merged. destruct df_old as [|c l].
  - destruct (Hkey df_new) as [H1 H2]. split; [exact H1|].
    intros t. rewrite H2. cbn. tauto.
  - destruct (Hkey ((c :: l) ++ df_new)) as [H1 H2]. split; [exact H1|].
    intros t. rewrite H2, map_app. split; [apply in_app_or|apply in_or_app].
Qed.

(** X6. For a timestamp absent from the stored candles, the merged frame holds the first fetched candle with that timestamp. *)
Theorem merged_new_time_first_fetched (df_old df_new : list candle) (t : Z) :
  ~ In t (map time df_old) ->
  find (at_time t) (merged df_old df_new) = find (at_time t) df_new.
Proof.
  intros Ht. unfold merged.
  assert (Hkey : forall l, find (at_time t) (sort_values (drop_duplicates l))
                           = find (at_time t) l).
  { intros l. rewrite (find_perm_unique t (drop_duplicates l)).
    - unfold drop_duplicates. now rewrite find_drop_dup_aux by (intros []).
    - apply drop_dup_aux_spec.
    - symmetry. apply sort_values_perm. }
  destruct df_old as [|c l]; rewrite Hkey; [reflexivity|].
  apply find_app_skip. intros x Hx. unfold at_time.
  apply Z.eqb_neq. intros <-. apply Ht. now apply in_map.
Qed.

Lemma fetch_attempts_calls (ex : exchange) (symbol timeframe : string) (since : Z)
    (mr : nat) (l : list nat) :
  forall w r w', fetch_attempts ex symbol timeframe since mr l w = (r, w') ->
  exists k, (k <= List.length l)%nat /\ w_calls w' = (w_calls w + k)%nat /\
    w_requests w' = w_requests w ++ repeat since k /\
    w_clock w' = w_clock w /\ w_fs w' = w_fs w /\
    ((r = Ok None /\ k = List.length l) \/
     exists p, r = Ok (Some p) /\ (0 < k)%nat /\
       fetch_ohlcv ex (w_calls w + k - 1) symbol timeframe since
         BYBIT_MAX_CANDLES_PER_FETCH = APage p).
Proof.
  induction l as [|a l IH]; intros w r w' Hrun.
  - inversion Hrun; subst. exists 0%nat. rewrite Nat.add_0_r, app_nil_r.
    repeat split; auto.
  - cbn [fetch_attempts] in Hrun.
    cbv [bind do_sleep call_fetch_ohlcv ret print] in Hrun.
    cbn [w_fs w_calls w_clock w_requests w_sleeps w_out] in Hrun.
    destruct (fetch_ohlcv ex (w_calls w) symbol timeframe since _) eqn:Hf.
    + cbn [w_fs w_calls w_clock w_requests w_sleeps w_out] in Hrun.
      fold (@bind unit (option (list candle))) in Hrun.
      apply IH in Hrun as (k & Hk & Hc & Hq & Hcl & Hfs & Hr).
      cbn [w_fs w_calls w_clock w_requests] in Hc, Hq, Hcl, Hfs.
      exists (S k). cbn [List.length]. repeat split.
      * lia.
      * lia.
      * rewrite Hq, <- app_assoc. reflexivity.
      * exact Hcl.
      * exact Hfs.
      * destruct Hr as [[-> ->]|(p & -> & Hk0 & Hp)]; [left; auto|right].
        exists p. split; [reflexivity|]. split; [lia|].
        cbn [w_calls] in Hp. rewrite <- Hp. f_equal. lia.
    + inversion Hrun; subst. exists 1%nat.
      repeat split; cbn [List.length w_fs w_calls w_clock w_requests repeat];
        try lia; try reflexivity.
      right. exists candles. split; [reflexivity|]. split; [lia|].
      rewrite <- Hf. f_equal. lia.
Qed.

Lemma fetch_candles_calls (ex : exchange) (symbol timeframe : string) (since : Z)
    (mr : nat) (w w' : world) (r : result (list candle)) :
  fetch_candles ex symbol timeframe since mr w = (r, w') ->
  exists k, (k <= mr)%nat /\ w_calls w' = (w_calls w + k)%nat /\
    w_requests w' = w_requests w ++ repeat since k /\
    w_clock w' = w_clock w /\ w_fs w' = w_fs w /\
    ((r = Exc (ConnectionError (exhausted_msg mr)) /\ k = mr) \/
     exists p, r = Ok p /\ (0 < k)%nat /\
       fetch_ohlcv ex (w_calls w + k - 1) symbol timeframe since
         BYBIT_MAX_CANDLES_PER_FETCH = APage p).
Proof.
  unfold fetch_candles, bind. intros Hrun.
  destruct (fetch_attempts ex symbol timeframe since mr (seq 1 mr) w) as [r1 w1] eqn:E.
  apply fetch_attempts_calls in E as (k & Hk & Hc & Hq & Hcl & Hfs & Hr).
  rewrite length_seq in Hk, Hr.
  destruct Hr as [[-> ->]|(p & -> & Hk0 & Hp)]; cbv [ret raise] in Hrun;
    inversion Hrun; subst.
  - exists mr. repeat split; auto.
  - exists k. repeat split; auto. right. exists p. auto.
Qed.

Lemma fetch_attempts_trace (ex : exchange) (symbol timeframe : string) (since : Z)
    (mr n : nat) :
  forall a w,
    (forall i, (i < n)%nat -> exists e,
        fetch_ohlcv ex (w_calls w + i) symbol timeframe since
          BYBIT_MAX_CANDLES_PER_FETCH = AFail e) ->
    fetch_attempts ex symbol timeframe since mr (seq a n) w =
      (Ok None,
       mkWorld (w_fs w) (w_calls w + n) (w_clock w) (w_requests w ++ repeat since n)
         (w_sleeps w ++ attempt_sleeps a n)
         (w_out w ++ map (fun i => AttemptError i mr
                            (err_of (fetch_ohlcv ex (w_calls w + (i - a)) symbol timeframe
                                       since BYBIT_MAX_CANDLES_PER_FETCH)))
                         (seq a n))).
Proof.
  induction n as [|n IH]; intros a w Hfail.
  - cbn. rewrite Nat.add_0_r, !app_nil_r. destruct w; reflexivity.
  - destruct (Hfail 0%nat ltac:(lia)) as [e He]. rewrite Nat.add_0_r in He.
    cbn [seq fetch_attempts]. cbv [bind do_sleep call_fetch_ohlcv ret print].
    cbn [w_fs w_calls w_clock w_requests w_sleeps w_out].
    rewrite He. cbn [w_fs w_calls w_clock w_requests w_sleeps w_out].
    fold (@bind unit (option (list candle))).
    rewrite IH.
    + cbn [w_fs w_calls w_clock w_requests w_sleeps w_out].
      unfold attempt_sleeps. cbn [seq flat_map map repeat].
      rewrite Nat.sub_diag, Nat.add_0_r, He. cbn [err_of].
      f_equal. f_equal.
      * lia.
      * now rewrite <- app_assoc.
      * now rewrite <- !app_assoc.
      * rewrite <- !app_assoc. cbn [app]. f_equal. f_equal.
        apply map_ext_in. intros i Hi. apply in_seq in Hi.
        replace (S (w_calls w) + (i - S a))%nat with (w_calls w + (i - a))%nat
          by lia. reflexivity.
    + intros i Hi. destruct (Hfail (S i) ltac:(lia)) as [e' He'].
      exists e'. cbn [w_calls]. rewrite <- He'. f_equal. lia.
Qed.

Lemma backoff_total_attempt_sleeps (n : nat) :
  forall a, backoff_total (attempt_sleeps a n) = 2 ^ Z.of_nat (a + n) - 2 ^ Z.of_nat a.
Proof.
  induction n as [|n IH]; intros a.
  - cbn. rewrite Nat.add_0_r. lia.
  - unfold attempt_sleeps in *. cbn [seq flat_map app backoff_total].
    rewrite IH. replace (S a + n)%nat with (a + S n)%nat by lia.
    rewrite Nat2Z.inj_succ, Z.pow_succ_r by lia. lia.
Qed.

Lemma bind_inv {A B} (m : M A) (k : A -> M B) (w w' : world) (r : result B) :
  bind m k w = (r, w') ->
  exists r1 w1, m w = (r1, w1) /\
    match r1 with Ok a => k a w1 = (r, w') | _ => w' = w1 end.
Proof.
  unfold bind. destruct (m w) as [[a|e|] w1]; intros H.
  - exists (Ok a), w1. split; [reflexivity|exact H].
  - exists (Exc e), w1. split; [reflexivity|]. now inversion H.
  - exists Diverge, w1. split; [reflexivity|]. now inversion H.
Qed.

Lemma grows_bind {A B} (m : M A) (k : A -> M B) :
  grows m -> (forall a, grows (k a)) -> grows (bind m k).
Proof.
  intros Hm Hk w. unfold bind. specialize (Hm w).
  destruct (m w) as [[a|e|] w1]; cbn [snd] in *; [|exact Hm|exact Hm].
  destruct Hm as [Hc [l Hl]]. destruct (Hk a w1) as [Hc' [l' Hl']].
  split; [lia|]. exists (l ++ l'). now rewrite Hl', Hl, app_assoc.
Qed.

Lemma grows_bind_prefix {A B} (m : M A) (k : A -> M B) (w w' : world) (r : result B) :
  (forall a, grows (k a)) -> bind m k w = (r, w') ->
  exists l, w_requests w' = w_requests (snd (m w)) ++ l.
Proof.
  intros Hk H. unfold bind in H. destruct (m w) as [[a|e|] w1]; cbn [snd].
  - destruct (Hk a w1) as [_ [l Hl]]. rewrite H in Hl. cbn in Hl. now exists l.
  - inversion H; subst. exists []. now rewrite app_nil_r.
  - inversion H; subst. exists []. now rewrite app_nil_r.
Qed.

Ltac grows_leaf :=
  intros ?; cbn; split; [lia|exists []; now rewrite app_nil_r].

Lemma fetch_candles_grows (ex : exchange) (symbol timeframe : string) (since : Z)
    (mr : nat) : grows (fetch_candles ex symbol timeframe since mr).
Proof.
  intros w. destruct (fetch_candles ex symbol timeframe since mr w) as [r w'] eqn:E.
  apply fetch_candles_calls in E as (k & _ & Hc & Hq & _). cbn [snd].
  split; [lia|]. now exists (repeat since k).
Qed.

Section Grows.

Variable ex : exchange.
Variables symbol timeframe : string.

Lemma loop_body_grows (st : loop_state) : grows (loop_body ex symbol timeframe st).
Proof.
  unfold loop_body, utc_check, last_candle. cbv zeta.
  monad_steps @grows_bind; first [apply fetch_candles_grows | grows_leaf].
Qed.

Lemma pagination_grows (fuel : nat) :
  forall st, grows (pagination ex symbol timeframe fuel st).
Proof.
  induction fuel as [|fuel IH]; intros st; cbn [pagination]; [grows_leaf|].
  apply grows_bind; [apply loop_body_grows|].
  intros [acc|st']; [grows_leaf|apply IH].
Qed.

Lemma persist_grows (filename : string) (df_old all : list candle) :
  grows (persist filename df_old all).
Proof. unfold persist. monad_steps @grows_bind; grows_leaf. Qed.

End Grows.



Lemma loop_body_first_request (ex : exchange) (symbol timeframe : string)
    (st : loop_state) (w w' : world) (r : result step) :
  utc_in_range (since_of st) = true ->
  loop_body ex symbol timeframe st w = (r, w') ->
  exists rest, w_requests w' = w_requests w ++ since_of st :: rest.
Proof.
  intros Hu Hrun. unfold loop_body in Hrun. cbv zeta in Hrun.
  apply bind_inv in Hrun as (r1 & w1 & H1 & Hrun).
  unfold utc_check in H1. rewrite Hu in H1. injection H1 as <- <-.
  apply bind_inv in Hrun as (r2 & w2 & H2 & Hrun).
  cbv [print] in H2. injection H2 as <- <-.
  apply bind_inv in Hrun as (r3 & w3 & H3 & Hrun).
  apply fetch_candles_calls in H3 as (k & _ & _ & Hq & _ & _ & Hr).
  cbn [w_requests] in Hq.
  assert (Hk : exists k', k = S k').
  { destruct Hr as [[_ ->]|(_ & _ & Hk0 & _)]; [now exists 4%nat|].
    destruct k as [|k']; [lia|now exists k']. }
  destruct Hk as [k' ->]. cbn [repeat] in Hq.
  assert (Hl : exists l, w_requests w' = w_requests w3 ++ l).
  { destruct r3 as [a| |].
    - match type of Hrun with ?m w3 = _ =>
        assert (Hg : grows m) by
          (unfold last_candle, utc_check; monad_steps @grows_bind; grows_leaf)
      end.
      destruct (Hg w3) as [_ [l Hl]]. rewrite Hrun in Hl. now exists l.
    - subst. exists []. now rewrite app_nil_r.
    - subst. exists []. now rewrite app_nil_r. }
  destruct Hl as [l Hl]. exists (repeat (since_of st) k' ++ l).
  rewrite Hl, Hq, <- app_assoc. reflexivity.
Qed.

Lemma load_old_none (filename : string) (w : world) :
  w_fs w filename = None ->
  load_old filename w = (Ok ([], None), snd (print (NewCsv filename) w)).
Proof.
  intros Hf. cbv [load_old bind read_file print ret]. rewrite Hf. reflexivity.
Qed.

Lemma load_old_header_only (filename : string) (w : world) :
  w_fs w filename = Some [] -> load_old filename w = (Exc IndexError, w).
Proof.
  intros Hf. cbv [load_old bind read_file print ret raise last_candle].
  rewrite Hf. reflexivity.
Qed.

Lemma load_old_rows (filename : string) (w : world) (F : csv) (r : csvrow) :
  w_fs w filename = Some (F ++ [r]) ->
  load_old filename w = (Ok (map read_row (F ++ [r]), Some (r_time r)),
                         snd (print (CsvExists filename) w)).
Proof.
  intros Hf. unfold load_old, bind at 1, read_file. rewrite Hf. cbv beta iota.
  unfold bind, last_candle. rewrite map_app, rev_app_distr. reflexivity.
Qed.

Section MainRuns.

Variable ex : exchange.
Variables symbol timeframe : string.

Lemma main_header_only (fuel : nat) (w : world) :
  in_valid timeframe = true -> w_fs w (sanitize_filename symbol timeframe) = Some [] ->
  main ex symbol timeframe fuel w = (Exc IndexError, snd (print Banner w)).
Proof.
  intros Hv Hf. unfold main. cbv zeta. unfold bind at 1.
  change (print Banner w) with (Ok tt, snd (print Banner w)). cbv beta iota.
  rewrite Hv. cbn [negb]. unfold bind at 1.
  rewrite (load_old_header_only (sanitize_filename symbol timeframe) (snd (print Banner w)) Hf). reflexivity.
Qed.

Lemma main_new_file (fuel : nat) (w : world) :
  in_valid timeframe = true -> w_fs w (sanitize_filename symbol timeframe) = None ->
  main ex symbol timeframe fuel w =
    bind (pagination ex symbol timeframe fuel (mkLoop [] None None))
         (persist (sanitize_filename symbol timeframe) [])
         (snd (print (NewCsv (sanitize_filename symbol timeframe)) (snd (print Banner w)))).
Proof.
  intros Hv Hf. unfold main. cbv zeta. unfold bind at 1.
  change (print Banner w) with (Ok tt, snd (print Banner w)). cbv beta iota.
  rewrite Hv. cbn [negb]. unfold bind at 1.
  rewrite (load_old_none (sanitize_filename symbol timeframe) (snd (print Banner w)) Hf). reflexivity.
Qed.

Lemma main_existing_file (fuel : nat) (w : world) (F : csv) (r : csvrow) :
  in_valid timeframe = true -> w_fs w (sanitize_filename symbol timeframe) = Some (F ++ [r]) ->
  main ex symbol timeframe fuel w =
    bind (pagination ex symbol timeframe fuel (mkLoop [] None (Some (r_time r))))
         (persist (sanitize_filename symbol timeframe) (map read_row (F ++ [r])))
         (snd (print (CsvExists (sanitize_filename symbol timeframe)) (snd (print Banner w)))).
Proof.
  intros Hv Hf. unfold main. cbv zeta. unfold bind at 1.
  change (print Banner w) with (Ok tt, snd (print Banner w)). cbv beta iota.
  rewrite Hv. cbn [negb]. unfold bind at 1.
  rewrite (load_old_rows (sanitize_filename symbol timeframe) (snd (print Banner w)) F r Hf). reflexivity.
Qed.

End MainRuns.

Lemma persist_eq (filename : string) (df_old all : list candle) (w : world) :
  persist filename df_old all w =
    (Ok tt, mkWorld
       (fun f => if String.eqb f filename then Some (to_csv (merged df_old all))
                 else w_fs w f)
       (w_calls w) (w_clock w) (w_requests w) (w_sleeps w)
       ((w_out w ++ [Saved (List.length (merged df_old all)) filename])
          ++ [TotalFetched (List.length all)])).
Proof. reflexivity. Qed.

Lemma loop_body_empty_page (ex : exchange) (symbol timeframe : string)
    (st : loop_state) (w : world) :
  utc_in_range (since_of st) = true ->
  fetch_ohlcv ex (w_calls w) symbol timeframe (since_of st)
    BYBIT_MAX_CANDLES_PER_FETCH = APage [] ->
  exists w', loop_body ex symbol timeframe st w = (Ok (Break (all_candles st)), w') /\
    w_fs w' = w_fs w.
Proof.
  intros Hu Hf. unfold loop_body. cbv zeta.
  unfold bind at 1, utc_check. rewrite Hu.
  cbv [bind print ret fetch_candles fetch_attempts seq do_sleep call_fetch_ohlcv raise].
  cbn [w_fs w_calls w_clock w_requests w_sleeps w_out].
  rewrite Hf. eexists. split; reflexivity.
Qed.






Lemma writes_only_bind {A B} (f : string) (m : M A) (k : A -> M B) :
  writes_only f m -> (forall a, writes_only f (k a)) -> writes_only f (bind m k).
Proof.
  intros Hm Hk w g Hg. unfold bind. specialize (Hm w g Hg).
  destruct (m w) as [[a|e|] w1]; cbn [snd] in *; [|exact Hm|exact Hm].
  rewrite (Hk a w1 g Hg). exact Hm.
Qed.

Lemma no_write_writes_only {A} (f : string) (m : M A) : no_write m -> writes_only f m.
Proof. intros H w g _. now rewrite H. Qed.

Lemma run_first_request (ex : exchange) (symbol timeframe : string) (fuel : nat)
    (st0 : loop_state) (filename : string) (df : list candle) (w1 w' : world)
    (r : result unit) :
  utc_in_range (since_of st0) = true ->
  bind (pagination ex symbol timeframe (S fuel) st0) (persist filename df) w1 = (r, w') ->
  exists rest, w_requests w' = w_requests w1 ++ since_of st0 :: rest.
Proof.
  intros Hu H.
  destruct (grows_bind_prefix _ _ _ _ _ (persist_grows filename df) H) as [l1 Hl1].
  destruct (pagination ex symbol timeframe (S fuel) st0 w1) as [r2 w2] eqn:Ep.
  cbn [snd] in Hl1. cbn [pagination] in Ep.
  assert (Hk : forall s, grows (match s with
                                | Break acc => ret acc
                                | Continue st' => pagination ex symbol timeframe fuel st'
                                end)).
  { intros [acc|st']; [grows_leaf|apply pagination_grows]. }
  destruct (grows_bind_prefix _ _ _ _ _ Hk Ep) as [l2 Hl2].
  destruct (loop_body ex symbol timeframe st0 w1) as [r3 w3] eqn:El. cbn [snd] in Hl2.
  destruct (loop_body_first_request ex symbol timeframe st0 w1 w3 r3 Hu El) as [rest Hr].
  exists (rest ++ l2 ++ l1). rewrite Hl1, Hl2, Hr. now rewrite <- !app_assoc.
Qed.



(** X4. When every attempt fails, [fetch_candles] makes max_retries calls, prints one attempt line per failure, sleeps 0.5 s and 2^i s after attempt i, for a backoff total of 2^(max_retries+1) - 2 seconds, and raises the exhaustion error. *)
Theorem fetch_candles_exhaustion_trace (ex : exchange) (symbol timeframe : string)
    (since : Z) (max_retries : nat) (w : world) :
  (forall i, (i < max_retries)%nat -> exists e,
      fetch_ohlcv ex (w_calls w + i) symbol timeframe since
        BYBIT_MAX_CANDLES_PER_FETCH = AFail e) ->
  fetch_candles ex symbol timeframe since max_retries w =
    (Exc (ConnectionError (exhausted_msg max_retries)),
     mkWorld (w_fs w) (w_calls w + max_retries) (w_clock w)
       (w_requests w ++ repeat since max_retries)
       (w_sleeps w ++ attempt_sleeps 1 max_retries)
       (w_out w ++ map (fun i => AttemptError i max_retries
                          (err_of (fetch_ohlcv ex (w_calls w + (i - 1)) symbol timeframe
                                     since BYBIT_MAX_CANDLES_PER_FETCH)))
                       (seq 1 max_retries))) /\
  backoff_total (attempt_sleeps 1 max_retries) = 2 ^ (Z.of_nat max_retries + 1) - 2.
Proof.
  intros Hfail. split.
  - unfold fetch_candles, bind.
    rewrite (fetch_attempts_trace ex symbol timeframe since max_retries max_retries 1 w Hfail).
    reflexivity.
  - rewrite backoff_total_attempt_sleeps.
    replace (Z.of_nat (1 + max_retries)) with (Z.of_nat max_retries + 1) by lia.
    reflexivity.
Qed.


(** X9. A stored file with a header and no rows makes [main] raise IndexError after printing the banner, with nothing fetched or written. *)
Theorem header_only_file_raises (ex : exchange) (symbol timeframe : string)
    (fuel : nat) (w : world) :
  in_valid timeframe = true ->
  w_fs w (sanitize_filename symbol timeframe) = Some [] ->
  main ex symbol timeframe fuel w =
    (Exc IndexError, mkWorld (w_fs w) (w_calls w) (w_clock w) (w_requests w)
                       (w_sleeps w) (w_out w ++ [Banner])).
Proof. apply main_header_only. Qed.

(** X10. With no stored file and an empty first page, [main] writes a header-only file, and every later run on that file raises IndexError. *)
Theorem empty_history_writes_header_only (ex : exchange) (symbol timeframe : string)
    (fuel : nat) (w : world) :
  in_valid timeframe = true ->
  w_fs w (sanitize_filename symbol timeframe) = None ->
  fetch_ohlcv ex (w_calls w) symbol timeframe epoch_floor
    BYBIT_MAX_CANDLES_PER_FETCH = APage [] ->
  exists w', main ex symbol timeframe (S fuel) w = (Ok tt, w') /\
    w_fs w' (sanitize_filename symbol timeframe) = Some [] /\
    forall ex' fuel', fst (main ex' symbol timeframe fuel' w') = Exc IndexError.
Proof.
  intros Hv Hf Hp.
  rewrite (main_new_file ex symbol timeframe (S fuel) w Hv Hf).
  set (w1 := snd (print (NewCsv _) _)).
  destruct (loop_body_empty_page ex symbol timeframe (mkLoop [] None None) w1
              eq_refl Hp) as (w2 & Hb & _).
  assert (Hpag : pagination ex symbol timeframe (S fuel) (mkLoop [] None None) w1
                 = (Ok [], w2)).
  { cbn [pagination]. unfold bind. rewrite Hb. reflexivity. }
  unfold bind at 1. rewrite Hpag, persist_eq.
  eexists. split; [reflexivity|]. split.
  - cbn [w_fs]. rewrite String.eqb_refl. reflexivity.
  - intros ex' fuel'. rewrite main_header_only; [reflexivity|exact Hv|].
    cbn [w_fs]. rewrite String.eqb_refl. reflexivity.
Qed.


(** X12. [main] never changes any file other than [sanitize_filename symbol timeframe], whatever its outcome. *)
Theorem main_writes_only_its_file (ex : exchange) (symbol timeframe : string)
    (fuel : nat) (w w' : world) (r : result unit) (f : string) :
  main ex symbol timeframe fuel w = (r, w') ->
  f <> sanitize_filename symbol timeframe -> w_fs w' f = w_fs w f.
Proof.
  intros Hrun Hf.
  assert (H : writes_only (sanitize_filename symbol timeframe)
                (main ex symbol timeframe fuel)).
  { unfold main. cbv zeta.
    apply writes_only_bind; [apply no_write_writes_only, no_write_print|intros _].
    destruct (negb _); [apply no_write_writes_only, no_write_print|].
    apply writes_only_bind; [apply no_write_writes_only, load_old_no_write|].
    intros [df_old lt].
    apply writes_only_bind; [apply no_write_writes_only, pagination_no_write|].
    intros all. unfold persist.
    apply writes_only_bind.
    - intros w0 g Hg. cbn [write_file snd w_fs].
      destruct (String.eqb_spec g (sanitize_filename symbol timeframe)); congruence.
    - intros _. apply no_write_writes_only.
      apply no_write_bind; [apply no_write_print|intros _; apply no_write_print]. }
  specialize (H w f Hf). rewrite Hrun in H. exact H.
Qed.


(** X14. The first request of a run asks from the epoch floor when no file is stored, and otherwise from the timestamp of the last stored row (the epoch floor when it is 0). *)
Theorem first_request_since (ex : exchange) (symbol timeframe : string) (fuel : nat)
    (w w' : world) (r : result unit) :
  in_valid timeframe = true ->
  main ex symbol timeframe (S fuel) w = (r, w') ->
  (w_fs w (sanitize_filename symbol timeframe) = None ->
   exists rest, w_requests w' = w_requests w ++ epoch_floor :: rest) /\
  (forall F row, w_fs w (sanitize_filename symbol timeframe) = Some (F ++ [row]) ->
   utc_in_range (r_time row) = true ->
   exists rest, w_requests w' = w_requests w ++
     (if r_time row =? 0 then epoch_floor else r_time row) :: rest).
Proof.
  intros Hv Hrun. split.
  - intros Hf. rewrite (main_new_file ex symbol timeframe (S fuel) w Hv Hf) in Hrun.
    exact (run_first_request ex symbol timeframe fuel (mkLoop [] None None) _ _ _ _ _
             eq_refl Hrun).
  - intros F row Hf Hu.
    rewrite (main_existing_file ex symbol timeframe (S fuel) w F row Hv Hf) in Hrun.
    assert (Hs : since_of (mkLoop [] None (Some (r_time row)))
                 = if r_time row =? 0 then epoch_floor else r_time row).
    { unfold since_of, truthy. cbn [last_timestamp].
      destruct (r_time row =? 0); reflexivity. }
    assert (Hu0 : utc_in_range (since_of (mkLoop [] None (Some (r_time row)))) = true).
    { rewrite Hs. destruct (r_time row =? 0); [reflexivity|exact Hu]. }
    destruct (run_first_request ex symbol timeframe fuel _ _ _ _ _ _ Hu0 Hrun)
      as [rest Hr].
    exists rest. rewrite Hr, Hs. reflexivity.
Qed.


Lemma fetch_candles_exhaustion_trace_witness :
  backoff_total (attempt_sleeps 1 3) = 14 /\
  fst (fetch_candles failing_exchange btc "5m" epoch_floor 3 empty_world)
    = Exc (ConnectionError (exhausted_msg 3)).
Proof.
  destruct (fetch_candles_exhaustion_trace failing_exchange btc "5m" epoch_floor 3 empty_world)
    as [Hrun Hb].
  - intros i _. exists "timeout"%string. reflexivity.
  - split; [exact Hb|]. rewrite Hrun. reflexivity.
Defined.

Lemma merged_new_time_first_fetched_witness :
  find (at_time 400) (merged (map read_row stored_rows)
                       [sample_candle 400; sample_candle 500])
    = Some (sample_candle 400).
Proof.
  rewrite (merged_new_time_first_fetched (map read_row stored_rows)
             [sample_candle 400; sample_candle 500] 400)
    by (vm_compute; intros [H|[H|[H|[]]]]; discriminate).
  reflexivity.
Defined.


Lemma header_only_file_raises_witness :
  fst (main failing_exchange btc "5m" 10 (world_with_file btc_file [])) = Exc IndexError.
Proof.
  rewrite (header_only_file_raises failing_exchange btc "5m" 10
             (world_with_file btc_file []) eq_refl ltac:(vm_compute; reflexivity)).
  reflexivity.
Defined.

Lemma empty_history_writes_header_only_witness :
  exists w', main (paged_exchange [] 1700000000000) btc "5m" 10 empty_world = (Ok tt, w') /\
    w_fs w' btc_file = Some [].
Proof.
  destruct (empty_history_writes_header_only (paged_exchange [] 1700000000000) btc "5m" 9
              empty_world eq_refl eq_refl eq_refl) as (w' & Hrun & Hf & _).
  exists w'. split; [exact Hrun|exact Hf].
Defined.


Lemma main_writes_only_its_file_witness :
  w_fs (snd (main overlap_exchange btc "5m" 10 (world_with_file btc_file stored_rows)))
    "other.csv"%string = None.
Proof.
  rewrite (main_writes_only_its_file overlap_exchange btc "5m" 10
             (world_with_file btc_file stored_rows) _ _ "other.csv"%string
             (surjective_pairing _) ltac:(vm_compute; discriminate)).
  reflexivity.
Defined.


Lemma first_request_since_witness :
  exists rest,
    w_requests (snd (main overlap_exchange btc "5m" 10 (world_with_file btc_file stored_rows)))
      = 300 :: rest.
Proof.
  destruct (first_request_since overlap_exchange btc "5m" 9
              (world_with_file btc_file stored_rows) _ _ eq_refl (surjective_pairing _))
    as [_ H].
  destruct (H (map (fun t => to_row (sample_candle t)) [100; 200])
              (to_row (sample_candle 300)) eq_refl eq_refl) as [rest Hr].
  exists rest. exact Hr.
Defined.
